(** * weather-air-quality: collector and descriptive-statistics reporter

    A shallow embedding of the two scripts of the repository:

    - [air_quality.py] (module [Collector]): polls two HTTP endpoints per
      configured city and rewrites a CSV snapshot file;
    - [supabase_descriptive_stats.py] (module [Reporter]): reads two hourly
      series, outer-joins them, computes per-city descriptive statistics and
      renders charts.

    External libraries (requests, csv, pandas, psycopg2, matplotlib) are
    modelled by their documented behaviour.  Measurements are exact rationals
    ([Q]) and the pandas reductions of module [pd] compute the values they
    denote; a missing value (NaN / None / NULL) is explicit wherever pandas
    has one.  Module [f64] evaluates the mean and the extremes in float64, to
    show where rounding separates the emitted number from the exact one. *)

From Corelib Require Import PrimFloat.
From Stdlib Require Import ZArith QArith Qminmax Lqa Lia String Ascii.
From stdpp Require Import base option list sorting gmap strings pretty.

Set Warnings "-register-all".
Set Warnings "-inexact-float".
Set Default Proof Using "Type".

(** ** Python exceptions and fallible computations *)

Inductive exn :=
| RequestException   (* requests.get: no connection, timeout, ... *)
| HTTPError          (* Response.raise_for_status *)
| JSONDecodeError    (* Response.json on a body that is not JSON *)
| KeyError
| IndexError
| TypeError
| ValueError
| OperationalError   (* psycopg2.connect *)
| DatabaseError      (* pandas.read_sql *)
| OSError.           (* file and figure output *)

Inductive result (A : Type) :=
| Ok (a : A)
| Raise (e : exn).
Arguments Ok {A} a.
Arguments Raise {A} e.

#[global] Instance result_ret : MRet result := fun _ a => Ok a.
#[global] Instance result_bind : MBind result := fun _ _ f m =>
  match m with
  | Ok a => f a
  | Raise e => Raise e
  end.

Definition raises {A} (m : result A) : Prop :=
  match m with
  | Ok _ => False
  | Raise _ => True
  end.

(** ** air_quality.py *)
Module Collector.

(** A decoded JSON document, as [Response.json] returns it. *)
Inductive json :=
| JNull
| JBool (b : bool)
| JInt (z : Z)
| JFloat (q : Q)
| JStr (s : string)
| JArr (l : list json)
| JObj (m : gmap string json).

(** [v[k]] for a string key [k]: only a dict can be indexed by a string. *)
Definition getitem (v : json) (k : string) : result json :=
  match v with
  | JObj m => match m !! k with
              | Some x => Ok x
              | None => Raise KeyError
              end
  | _ => Raise TypeError
  end.

(** [v[0]]: first element of a list, first character of a string; a dict
    decoded from JSON has string keys only, so the key [0] is absent. *)
Definition getitem0 (v : json) : result json :=
  match v with
  | JArr (x :: _) => Ok x
  | JArr [] => Raise IndexError
  | JStr (String c _) => Ok (JStr (String c EmptyString))
  | JStr EmptyString => Raise IndexError
  | JObj _ => Raise KeyError
  | _ => Raise TypeError
  end.

(** What the upstream API does with one request: nothing usable
    ([requests.get] raises), or a response with a status code and a body that
    may or may not decode as JSON. *)
Inductive reply :=
| NoReply
| Reply (status_code : Z) (body : option json).

Record request := {
  endpoint : string;
  lat : Q;
  lon : Q;
  appid : string;
  units : option string
}.

(** One cell handed to [csv.writer.writerow]. [Stamp t] is the text
    [strftime] gives for the naive datetime [t] (seconds). *)
Inductive csv_cell :=
| Text (s : string)
| Value (j : json)
| Stamp (t : Z).

(** The world a run acts on: the UTC clock (seconds), the upstream's scripted
    behaviour (each entry answers the next request and says how long the
    request took), and the file system. *)
Record world := {
  clock : Z;
  upstream : list (request -> reply * Z);
  files : gmap string (list (list csv_cell))
}.

Definition CITIES : list (string * (Q * Q)) :=
  [ ("Hanoi"%string, (210285 # 10000, 1058542 # 10000)%Q);
    ("Danang"%string, (160544 # 10000, 1082022 # 10000)%Q) ].

Definition CSV_FILE : string := "weather_air_quality.csv".

Definition NA : json := JStr "N/A".

(** The answer the next request will get: none once the script is used up. *)
Definition reply_of (w : world) (url : request) : reply :=
  match upstream w with
  | [] => NoReply
  | f :: _ => (f url).1
  end.

Definition to_response (r : reply) : result (Z * option json) :=
  match r with
  | NoReply => Raise RequestException
  | Reply st body => Ok (st, body)
  end.


(** [requests.get(url)]: consumes the next scripted answer; time passes. *)
Definition requests_get (url : request) (w : world)
  : result (Z * option json) * world :=
  match upstream w with
  | [] => (Raise RequestException, w)
  | f :: rest =>
      (to_response (f url).1,
       {| clock := (clock w + Z.max 0 (f url).2)%Z; upstream := rest;
          files := files w |})
  end.

Definition raise_for_status (res : Z * option json) : result unit :=
  if bool_decide (400 ≤ res.1 < 600)%Z then Raise HTTPError else Ok tt.

Definition res_json (res : Z * option json) : result json :=
  match res.2 with
  | Some j => Ok j
  | None => Raise JSONDecodeError
  end.

Record weather_dict := {
  temp : json;
  humidity : json;
  weather : json;
  wind_speed : json
}.

Record air_dict := {
  aqi : json;
  co : json;
  no : json;
  no2 : json;
  o3 : json;
  so2 : json;
  pm2_5 : json;
  pm10 : json
}.

Section with_key.
Variable API_KEY : string.

(** The dict [get_weather] builds from the decoded body. *)
Definition weather_fields (data : json) : result weather_dict :=
  v_temp ← (m ← getitem data "main"; getitem m "temp");
  v_humidity ← (m ← getitem data "main"; getitem m "humidity");
  v_weather ← (l ← getitem data "weather"; x ← getitem0 l; getitem x "main");
  v_wind ← (m ← getitem data "wind"; getitem m "speed");
  Ok {| temp := v_temp; humidity := v_humidity; weather := v_weather;
        wind_speed := v_wind |}.

(** The [try] block of [get_weather], after the request was answered. *)
Definition weather_try (r : result (Z * option json)) : result weather_dict :=
  res ← r;
  raise_for_status res;;
  data ← res_json res;
  weather_fields data.

Definition weather_sentinel : weather_dict :=
  {| temp := NA; humidity := NA; weather := NA; wind_speed := NA |}.

Definition weather_url (lat lon : Q) : request :=
  {| endpoint := "http://api.openweathermap.org/data/2.5/weather";
     lat := lat; lon := lon; appid := API_KEY; units := Some "metric"%string |}.

Definition get_weather (lat lon : Q) (w : world) : weather_dict * world :=
  let '(r, w') := requests_get (weather_url lat lon) w in
  match weather_try r with
  | Ok d => (d, w')
  | Raise _ => (weather_sentinel, w')
  end.

(** The dict [get_air_quality] builds from the first entry of ["list"]. *)
Definition air_fields (data : json) : result air_dict :=
  v_aqi ← (m ← getitem data "main"; getitem m "aqi");
  v_co ← (m ← getitem data "components"; getitem m "co");
  v_no ← (m ← getitem data "components"; getitem m "no");
  v_no2 ← (m ← getitem data "components"; getitem m "no2");
  v_o3 ← (m ← getitem data "components"; getitem m "o3");
  v_so2 ← (m ← getitem data "components"; getitem m "so2");
  v_pm2_5 ← (m ← getitem data "components"; getitem m "pm2_5");
  v_pm10 ← (m ← getitem data "components"; getitem m "pm10");
  Ok {| aqi := v_aqi; co := v_co; no := v_no; no2 := v_no2; o3 := v_o3;
        so2 := v_so2; pm2_5 := v_pm2_5; pm10 := v_pm10 |}.

(** [res.json()["list"][0]] *)
Definition air_data (j : json) : result json :=
  l ← getitem j "list"; getitem0 l.

(** The [try] block of [get_air_quality]. *)
Definition air_try (r : result (Z * option json)) : result air_dict :=
  res ← r;
  raise_for_status res;;
  j ← res_json res;
  data ← air_data j;
  air_fields data.

Definition air_sentinel : air_dict :=
  {| aqi := NA; co := NA; no := NA; no2 := NA; o3 := NA; so2 := NA;
     pm2_5 := NA; pm10 := NA |}.

Definition air_url (lat lon : Q) : request :=
  {| endpoint := "http://api.openweathermap.org/data/2.5/air_pollution";
     lat := lat; lon := lon; appid := API_KEY; units := None |}.

Definition get_air_quality (lat lon : Q) (w : world) : air_dict * world :=
  let '(r, w') := requests_get (air_url lat lon) w in
  match air_try r with
  | Ok d => (d, w')
  | Raise _ => (air_sentinel, w')
  end.

Definition header : list csv_cell :=
  Text <$> [ "datetime"; "city"; "temp"; "humidity"; "weather"; "wind_speed";
             "aqi"; "co"; "no"; "no2"; "o3"; "so2"; "pm2_5"; "pm10" ]%string.

Definition weather_cells (d : weather_dict) : list csv_cell :=
  Value <$> [ temp d; humidity d; weather d; wind_speed d ].

Definition air_cells (d : air_dict) : list csv_cell :=
  Value <$> [ aqi d; co d; no d; no2 d; o3 d; so2 d; pm2_5 d; pm10 d ].

(** [open(CSV_FILE, "w")]: the file is created or truncated. *)
Definition open_w (path : string) (w : world) : world :=
  {| clock := clock w; upstream := upstream w;
     files := <[ path := [] ]> (files w) |}.

(** [writer.writerow(row)]: one more line at the end of the open file. *)
Definition writerow (path : string) (row : list csv_cell) (w : world) : world :=
  {| clock := clock w; upstream := upstream w;
     files := <[ path := default [] (files w !! path) ++ [row] ]> (files w) |}.

(** The body of the [for city, coords in CITIES.items()] loop. *)
Definition crawl_city (timestamp : Z) (w : world) (c : string * (Q * Q)) : world :=
  let '(city, (lat, lon)) := c in
  let '(weather, w1) := get_weather lat lon w in
  let '(air, w2) := get_air_quality lat lon w1 in
  let row := [Stamp timestamp; Text city] ++ weather_cells weather
               ++ air_cells air in
  writerow CSV_FILE row w2.

Definition crawl_and_save (w : world) : world :=
  let timestamp := (clock w + 7 * 3600)%Z in
  let w0 := writerow CSV_FILE header (open_w CSV_FILE w) in
  foldl (crawl_city timestamp) w0 CITIES.

End with_key.


End Collector.

(** ** The pandas operations the reporter uses *)
Module pd.

(** One entry of a measurement column. *)
Inductive cell :=
| Num (q : Q)        (* a number (or text that reads as one) *)
| Junk (s : string)  (* an entry that cannot be read as a number *)
| NaN.               (* missing: NaN, None, SQL NULL *)

(** A numeric Series: [None] is NaN. *)
Definition series := list (option Q).

(** [pd.to_numeric(s, errors="coerce")], entry by entry. *)
Definition to_numeric (c : cell) : option Q :=
  match c with
  | Num q => Some q
  | Junk _ => None
  | NaN => None
  end.

Definition dropna (x : series) : list Q := omap id x.

(** [x.notna().sum()] *)
Definition notna_sum (x : series) : nat := length (dropna x).

(** A float statistic. [root v] stands for the non-negative square root of
    [v], which [Q] cannot hold. *)
Inductive pyfloat :=
| nan
| num (q : Q)
| root (v : Q).

#[global] Instance Qle_dec (a b : Q) : Decision (a <= b)%Q.
Proof. destruct (Qlt_le_dec b a); [right; by apply Qlt_not_le | by left]. Defined.
#[global] Instance Qeq_dec' (a b : Q) : Decision (a == b)%Q := Qeq_dec a b.
#[global] Instance Qle_total : Total Qle.
Proof. intros a b. destruct (Qlt_le_dec a b); [left; by apply Qlt_le_weak | by right]. Qed.
#[global] Instance Qle_trans' : Transitive Qle := Qle_trans.

Definition Qsum (l : list Q) : Q := foldr Qplus 0%Q l.

Definition Qlen (l : list Q) : Q := inject_Z (Z.of_nat (length l)).

(** [x.mean()], NaN skipped. *)
Definition mean (x : series) : pyfloat :=
  match dropna x with
  | [] => nan
  | v => num (Qsum v / Qlen v)
  end.

(** [x.median()], NaN skipped: the middle of the sorted values, or the
    average of the two middle ones. *)
Definition median (x : series) : pyfloat :=
  let s := merge_sort Qle (dropna x) in
  let n := length s in
  if bool_decide (n = 0%nat) then nan
  else if Nat.even n then
    match s !! (n / 2 - 1)%nat, s !! (n / 2)%nat with
    | Some a, Some b => num ((a + b) / 2)
    | _, _ => nan
    end
  else
    match s !! (n / 2)%nat with
    | Some a => num a
    | None => nan
    end.

(** [x.min()] and [x.max()], NaN skipped. *)
Definition min (x : series) : pyfloat :=
  match dropna x with
  | [] => nan
  | a :: v => num (foldl Qmin a v)
  end.

Definition max (x : series) : pyfloat :=
  match dropna x with
  | [] => nan
  | a :: v => num (foldl Qmax a v)
  end.

(** [x.std(ddof)], NaN skipped: undefined unless more than [ddof] values
    remain. *)
Definition std (ddof : nat) (x : series) : pyfloat :=
  let v := dropna x in
  let n := length v in
  if bool_decide (n ≤ ddof)%nat then nan
  else
    let avg := (Qsum v / Qlen v)%Q in
    let sqr := (λ a, (avg - a) * (avg - a))%Q <$> v in
    root (Qsum sqr / inject_Z (Z.of_nat (n - ddof))).

(** How often [a] occurs in [v]. *)
Definition occurrences (a : Q) (v : list Q) : nat :=
  length (filter (λ b, a == b)%Q v).

(** The distinct values of [v], in order of first appearance. *)
Fixpoint unique (v : list Q) : list Q :=
  match v with
  | [] => []
  | a :: v' => a :: filter (λ b, ¬ (a == b)%Q) (unique v')
  end.

(** [x.mode(dropna=True)]: the most frequent values, in ascending order. *)
Definition mode (x : series) : list Q :=
  let v := dropna x in
  let top := max_list ((λ a, occurrences a v) <$> v) in
  merge_sort Qle (filter (λ a, occurrences a v = top) (unique v)).

End pd.

(** ** The mean, the extremes and the standard deviation in float64
    A Series of floats without NaN.  NumPy adds fewer than eight numbers one
    after the other, starting from zero; the mean is that sum divided by the
    count and the variance the sum of the squared deviations from it divided
    by count - ddof.  Every operation rounds to the nearest float64. *)
Module f64.

Fixpoint of_nat (n : nat) : float :=
  match n with
  | O => 0%float
  | S k => (of_nat k + 1)%float
  end.

Definition sum (v : list float) : float := foldl PrimFloat.add 0%float v.

Definition mean (v : list float) : float :=
  match v with
  | [] => PrimFloat.nan
  | _ => (sum v / of_nat (length v))%float
  end.

Definition smaller (a b : float) : float := if PrimFloat.ltb b a then b else a.
Definition larger (a b : float) : float := if PrimFloat.ltb a b then b else a.

Definition min (v : list float) : float :=
  match v with
  | [] => PrimFloat.nan
  | a :: v' => foldl smaller a v'
  end.

Definition max (v : list float) : float :=
  match v with
  | [] => PrimFloat.nan
  | a :: v' => foldl larger a v'
  end.

Definition std (ddof : nat) (v : list float) : float :=
  if bool_decide (length v ≤ ddof)%nat then PrimFloat.nan
  else
    let avg := mean v in
    let sqr := (λ a, (avg - a) * (avg - a))%float <$> v in
    PrimFloat.sqrt (sum sqr / of_nat (length v - ddof)).

End f64.

(** ** supabase_descriptive_stats.py *)
Module Reporter.
Import pd.

Definition CITY_MAP : gmap Z string :=
  {[ 1%Z := "Hanoi"%string; 2%Z := "Danang"%string ]}.

(** *** The two series, as [read_weather] and [read_air] select them.
    [timestamp] is the hour bucket [date_trunc('hour', ts)], counted in hours. *)

Record wvals := {
  temperature : cell;
  humidity : cell;
  wind_speed : cell
}.

Record avals := {
  aqi : cell;
  pm2_5 : cell;
  pm10 : cell;
  co : cell;
  no : cell;
  no2 : cell;
  o3 : cell;
  so2 : cell
}.

Record wrow := { w_city_id : Z; w_timestamp : Z; w_vals : wvals }.
Record arow := { a_city_id : Z; a_timestamp : Z; a_vals : avals }.

(** A row of [pd.merge]'s result. *)
Record jrow := { j_city_id : Z; j_timestamp : Z; j_wx : wvals; j_air : avals }.

(** A row of the merged table: the joined row and its [city_name]
    ([None] is NaN). *)
Record mrow := {
  city_id : Z;
  timestamp : Z;
  wx : wvals;
  air : avals;
  city_name : option string
}.

Definition no_weather : wvals :=
  {| temperature := NaN; humidity := NaN; wind_speed := NaN |}.
Definition no_air : avals :=
  {| aqi := NaN; pm2_5 := NaN; pm10 := NaN; co := NaN; no := NaN; no2 := NaN;
     o3 := NaN; so2 := NaN |}.

Definition w_key (w : wrow) : Z * Z := (w_city_id w, w_timestamp w).
Definition a_key (a : arow) : Z * Z := (a_city_id a, a_timestamp a).
Definition j_key (j : jrow) : Z * Z := (j_city_id j, j_timestamp j).
Definition m_key (m : mrow) : Z * Z := (city_id m, timestamp m).

(** [pd.merge(df_w, df_a, on=["city_id", "timestamp"], how="outer")]: every
    left row with each right row of its key (or with missing right columns
    when there is none), then the right rows whose key no left row has.
    pandas orders the result by key; [merge_hourly] sorts it next, so the
    order chosen here only shows among rows of equal key. *)
Definition pd_merge_outer (df_w : list wrow) (df_a : list arow) : list jrow :=
  (w ← df_w;
   match filter (λ a, a_key a = w_key w) df_a with
   | [] => [ {| j_city_id := w_city_id w; j_timestamp := w_timestamp w;
                j_wx := w_vals w; j_air := no_air |} ]
   | ms => (λ a, {| j_city_id := w_city_id w; j_timestamp := w_timestamp w;
                    j_wx := w_vals w; j_air := a_vals a |}) <$> ms
   end)
  ++ ((λ a, {| j_city_id := a_city_id a; j_timestamp := a_timestamp a;
               j_wx := no_weather; j_air := a_vals a |})
        <$> filter (λ a, a_key a ∉ (w_key <$> df_w)) df_a).

(** Ascending order on [(city_id, timestamp)]. *)
Definition key_le (k1 k2 : Z * Z) : Prop :=
  (k1.1 < k2.1 ∨ (k1.1 = k2.1 ∧ k1.2 ≤ k2.2))%Z.
Definition key_lt (k1 k2 : Z * Z) : Prop :=
  (k1.1 < k2.1 ∨ (k1.1 = k2.1 ∧ k1.2 < k2.2))%Z.

#[global] Instance key_le_dec k1 k2 : Decision (key_le k1 k2).
Proof. unfold key_le. apply _. Defined.
#[global] Instance key_lt_dec k1 k2 : Decision (key_lt k1 k2).
Proof. unfold key_lt. apply _. Defined.

Definition j_le (r1 r2 : jrow) : Prop := key_le (j_key r1) (j_key r2).
#[global] Instance j_le_dec r1 r2 : Decision (j_le r1 r2).
Proof. unfold j_le. apply _. Defined.

#[global] Instance key_le_total : Total key_le.
Proof. intros [a b] [c d]. unfold key_le; simpl. lia. Qed.
#[global] Instance key_le_trans : Transitive key_le.
Proof. intros [a b] [c d] [e f]. unfold key_le; simpl. lia. Qed.
#[global] Instance j_le_total : Total j_le.
Proof. intros x y. apply key_le_total. Qed.
#[global] Instance j_le_trans : Transitive j_le.
Proof. intros x y z. apply key_le_trans. Qed.

(** [df.sort_values(["city_id", "timestamp"]).reset_index(drop=True)] *)
Definition sort_values_key (df : list jrow) : list jrow := merge_sort j_le df.

Definition merge_hourly (df_w : list wrow) (df_a : list arow) : list mrow :=
  let df := pd_merge_outer df_w df_a in
  let df := sort_values_key df in
  (* df["city_name"] = df["city_id"].map(CITY_MAP) *)
  (λ j, {| city_id := j_city_id j; timestamp := j_timestamp j; wx := j_wx j;
           air := j_air j; city_name := CITY_MAP !! j_city_id j |}) <$> df.

(** The columns of the merged table: the keys, the selected measurements of
    both series, and [city_name]. *)
Definition columns (df : list mrow) : list string :=
  [ "city_id"; "timestamp"; "temperature"; "humidity"; "wind_speed";
    "aqi"; "pm2_5"; "pm10"; "co"; "no"; "no2"; "o3"; "so2"; "city_name" ]%string.

(** [row[col]] for a measurement column. *)
Definition getcol (col : string) (r : mrow) : cell :=
  if String.eqb col "temperature" then temperature (wx r)
  else if String.eqb col "humidity" then humidity (wx r)
  else if String.eqb col "wind_speed" then wind_speed (wx r)
  else if String.eqb col "aqi" then aqi (air r)
  else if String.eqb col "pm2_5" then pm2_5 (air r)
  else if String.eqb col "pm10" then pm10 (air r)
  else if String.eqb col "co" then co (air r)
  else if String.eqb col "no" then no (air r)
  else if String.eqb col "no2" then no2 (air r)
  else if String.eqb col "o3" then o3 (air r)
  else if String.eqb col "so2" then so2 (air r)
  else NaN.

(** *** Statistics *)

Definition safe_mode (s : series) : pyfloat :=
  let m := mode s in
  match m with
  | a :: _ => num a
  | [] => nan
  end.

(** [float(v)]: the value itself; a rational is kept in lowest terms. *)
Definition to_float (v : pyfloat) : pyfloat :=
  match v with
  | nan => nan
  | num q => num (Qred q)
  | root q => root (Qred q)
  end.

Record stat_row := {
  st_city_id : Z;
  st_city_name : string;
  st_variable : string;
  st_count : Z;
  st_mean : pyfloat;
  st_median : pyfloat;
  st_mode : pyfloat;
  st_std : pyfloat;
  st_min : pyfloat;
  st_max : pyfloat
}.

Definition numeric_cols (df : list mrow) : list string :=
  filter (λ c, c ∈ columns df)
    [ "temperature"; "humidity"; "wind_speed"; "aqi"; "pm2_5"; "pm10";
      "co"; "no"; "no2"; "o3"; "so2" ]%string.

(** [df.groupby("city_id")]: the groups in ascending order of the key, each
    with its rows in their order in [df]. *)
Definition groupby_city_id (df : list mrow) : list (Z * list mrow) :=
  (λ cid, (cid, filter (λ r, city_id r = cid) df))
    <$> merge_sort Z.le (remove_dups (city_id <$> df)).

(** [pd.to_numeric(sub[col], errors="coerce")] *)
Definition numeric_column (col : string) (sub : list mrow) : series :=
  to_numeric <$> (getcol col <$> sub).

Definition stat_of (cid : Z) (cname col : string) (x : series) : stat_row :=
  {| st_city_id := cid;
     st_city_name := cname;
     st_variable := col;
     st_count := Z.of_nat (notna_sum x);
     st_mean := to_float (mean x);
     st_median := to_float (median x);
     st_mode := to_float (safe_mode x);
     st_std := to_float (std 1 x);
     st_min := to_float (min x);
     st_max := to_float (max x) |}.

(** [CITY_MAP.get(cid, str(cid))] *)
Definition city_label (cid : Z) : string :=
  default (pretty cid) (CITY_MAP !! cid).

(** The two nested loops of [compute_stats], appending to [rows]. *)
Definition stats_rows (df : list mrow) : list stat_row :=
  foldl (λ rows '(cid, sub),
    let cname := city_label cid in
    foldl (λ rows col,
      let x := numeric_column col sub in
      if bool_decide (notna_sum x = 0%nat) then rows
      else rows ++ [stat_of cid cname col x])
      rows (numeric_cols df))
    [] (groupby_city_id df).

(** Ascending order on [(variable, city_id)]; strings compare by code. *)
Definition stat_le (r1 r2 : stat_row) : Prop :=
  match String.compare (st_variable r1) (st_variable r2) with
  | Lt => True
  | Eq => (st_city_id r1 ≤ st_city_id r2)%Z
  | Gt => False
  end.
#[global] Instance stat_le_dec r1 r2 : Decision (stat_le r1 r2).
Proof. unfold stat_le. destruct (String.compare _ _); apply _. Defined.

(** [pd.DataFrame(rows).sort_values(["variable", "city_id"])]: a frame built
    from no rows has no columns, and sorting it by name raises [KeyError]. *)
Definition compute_stats (df : list mrow) : result (list stat_row) :=
  match stats_rows df with
  | [] => Raise KeyError
  | rows => Ok (merge_sort stat_le rows)
  end.

(** The table a call hands back: nothing when it raises. *)
Definition emitted (df : list mrow) : list stat_row :=
  match compute_stats df with
  | Ok stats => stats
  | Raise _ => []
  end.

(** The numbers [compute_stats] finds in column [col] of city [cid]'s
    group: the entries of the group's rows that coerce to a number. *)
Definition observations (df : list mrow) (cid : Z) (col : string) : list Q :=
  dropna (numeric_column col (filter (λ r, city_id r = cid) df)).

(** What the inner loop appends for one group. *)
Definition group_stats (df : list mrow) (g : Z * list mrow) : list stat_row :=
  col ← numeric_cols df;
  let x := numeric_column col g.2 in
  if bool_decide (notna_sum x = 0%nat) then []
  else [stat_of g.1 (city_label g.1) col x].

(** *** Command line and main *)

Record args := {
  days_back : Z;
  cities : string;
  outdir : string;
  save_csv : bool;
  save_excel : bool
}.

(** Whitespace as [str.strip] and [int] see it (ASCII). *)
Definition py_isspace (c : ascii) : bool :=
  let n := nat_of_ascii c in
  ((9 <=? n) && (n <=? 13) || (28 <=? n) && (n <=? 32))%nat.

Fixpoint lstrip (s : string) : string :=
  match s with
  | String c s' => if py_isspace c then lstrip s' else s
  | EmptyString => EmptyString
  end.

Fixpoint rstrip (s : string) : string :=
  match s with
  | String c s' =>
      match rstrip s' with
      | EmptyString => if py_isspace c then EmptyString else String c EmptyString
      | r => String c r
      end
  | EmptyString => EmptyString
  end.

(** [x.strip()] *)
Definition strip (x : string) : string := rstrip (lstrip x).

(** [s.split(sep)] for a one-character separator. *)
Fixpoint split (sep : ascii) (s : string) : list string :=
  match s with
  | EmptyString => [EmptyString]
  | String c s' =>
      if Ascii.eqb c sep then EmptyString :: split sep s'
      else match split sep s' with
           | t :: ts => String c t :: ts
           | [] => [String c EmptyString]
           end
  end.

Definition digit (c : ascii) : option Z :=
  let n := nat_of_ascii c in
  if ((48 <=? n) && (n <=? 57))%nat then Some (Z.of_nat n - 48)%Z else None.

(** Decimal digits, single underscores allowed between digits. *)
Fixpoint digits (acc : Z) (after_digit : bool) (s : string) : option Z :=
  match s with
  | EmptyString => if after_digit then Some acc else None
  | String c s' =>
      if Ascii.eqb c "_" then
        if after_digit then digits acc false s' else None
      else
        match digit c with
        | Some d => digits (10 * acc + d)%Z true s'
        | None => None
        end
  end.

(** [int(x)] for a string: [None] is [ValueError]. *)
Definition py_int (x : string) : option Z :=
  match strip x with
  | String "-" s => Z.opp <$> digits 0 false s
  | String "+" s => digits 0 false s
  | s => digits 0 false s
  end.

(** The first lines of [main]: "1,2" -> [1; 2]. *)
Definition parse_cities (cities : string) : list Z :=
  let city_ids :=
    foldl (λ city_ids x,
      let x := strip x in
      if bool_decide (x ≠ EmptyString) then
        match py_int x with
        | Some n => city_ids ++ [n]
        | None => city_ids
        end
      else city_ids)
      [] (split "," cities) in
  match city_ids with
  | [] => [1; 2]%Z
  | _ => city_ids
  end.

(** What lies outside the script: the database and the file system. *)
Record env := {
  connect_db : result unit;
  query_weather : Z -> list Z -> result (list wrow);
  query_air : Z -> list Z -> result (list arow);
  write_file : string -> result unit
}.

Inductive conn_state := NotConnected | Open | Closed.

(** What a run leaves behind. *)
Record state := {
  connection : conn_state;
  outputs : list string
}.

Definition initial : state := {| connection := NotConnected; outputs := [] |}.

(** A step of [main]: it may raise, and it changes the state either way. *)
Definition prog (A : Type) : Type := state -> result A * state.

#[global] Instance prog_ret : MRet prog := fun _ a s => (Ok a, s).
#[global] Instance prog_bind : MBind prog := fun _ _ f m s =>
  match m s with
  | (Ok a, s') => f a s'
  | (Raise e, s') => (Raise e, s')
  end.

Definition lift {A} (r : result A) : prog A := fun s => (r, s).

(** [conn = connect()] *)
Definition connect (e : env) : prog unit := fun s =>
  match connect_db e with
  | Ok _ => (Ok tt, {| connection := Open; outputs := outputs s |})
  | Raise x => (Raise x, s)
  end.

(** [conn.close()] *)
Definition conn_close : prog unit := fun s =>
  (Ok tt, {| connection := Closed; outputs := outputs s |}).

Definition read_weather (e : env) (days : Z) (city_ids : list Z)
  : prog (list wrow) := lift (query_weather e days city_ids).

Definition read_air (e : env) (days : Z) (city_ids : list Z)
  : prog (list arow) := lift (query_air e days city_ids).

(** Creating a directory, a table file or a figure file: it may fail, and
    [outputs] keeps the paths the run has asked for. *)
Definition output (e : env) (path : string) : prog unit := fun s =>
  match write_file e path with
  | Ok _ => (Ok tt, {| connection := connection s;
                       outputs := outputs s ++ [path] |})
  | Raise x => (Raise x, s)
  end.

Fixpoint for_each {A} (l : list A) (body : A -> prog unit) : prog unit :=
  match l with
  | [] => mret tt
  | a :: l' => body a;; for_each l' body
  end.

Definition when (b : bool) (p : prog unit) : prog unit :=
  if b then p else mret tt.

Definition ensure_outdir (e : env) (outdir : string) : prog unit :=
  output e outdir.

(** [Path(outdir)/f"{name}.png"] *)
Definition figure (outdir name : string) : string :=
  outdir +:+ "/" +:+ name +:+ ".png".

(** The plot functions are sinks: each asks for one figure, unless its
    column is not in the table.  What they draw, and whether one gives up
    for want of data, is left to the sink. *)
Definition plot_line (e : env) (df : list mrow) (col outdir : string)
  : prog unit :=
  if bool_decide (col ∈ columns df)
  then output e (figure outdir ("line_" +:+ col))
  else mret tt.

Definition plot_box_by_city (e : env) (df : list mrow) (col outdir : string)
  : prog unit :=
  if bool_decide (col ∈ columns df)
  then output e (figure outdir ("box_" +:+ col +:+ "_by_city"))
  else mret tt.

Definition plot_hist_with_stats (e : env) (df : list mrow)
    (col outdir : string) : prog unit :=
  if bool_decide (col ∈ columns df)
  then output e (figure outdir ("hist_" +:+ col +:+ "_with_stats"))
  else mret tt.

Definition plot_corr_heatmap (e : env) (df : list mrow) (outdir : string)
  : prog unit :=
  output e (figure outdir "heatmap_corr").

Definition main (a : args) (e : env) : prog unit :=
  let city_ids := parse_cities (cities a) in
  connect e;;
  df_w ← read_weather e (days_back a) city_ids;
  df_a ← read_air e (days_back a) city_ids;
  let df := merge_hourly df_w df_a in
  stats ← lift (compute_stats df);
  ensure_outdir e (outdir a);;
  when (save_csv a)
    (output e "descriptive_stats.csv";; output e "merged_data_preview.csv");;
  when (save_excel a) (output e "descriptive_stats.xlsx");;
  for_each ["temperature"; "aqi"]%string
    (λ col, plot_line e df col (outdir a));;
  for_each ["aqi"; "temperature"; "humidity"]%string
    (λ col, plot_box_by_city e df col (outdir a));;
  for_each ["aqi"; "temperature"]%string
    (λ col, plot_hist_with_stats e df col (outdir a));;
  plot_corr_heatmap e df (outdir a);;
  conn_close.

(** A step that leaves the connection as it found it, whether or not it
    raises. *)
Definition keeps {A} (p : prog A) : Prop :=
  ∀ s, connection (p s).2 = connection s.

(** A program that, started with the connection open, ends with it closed
    when it returns and still open when it raises. *)
Definition closes_on_return (p : prog unit) : Prop :=
  ∀ s, connection s = Open ->
    match p s with
    | (Ok _, s') => connection s' = Closed
    | (Raise _, s') => connection s' = Open
    end.

End Reporter.

(** ** Inputs of the scenarios *)
Module Scenario.
Import pd Reporter.

(** A database that answers every query with no rows, and a file system
    that accepts every write. *)
Definition empty_db : env :=
  {| connect_db := Ok tt;
     query_weather := λ _ _, Ok [];
     query_air := λ _ _, Ok [];
     write_file := λ _, Ok tt |}.

(** A database that accepts the connection and fails the first query. *)
Definition failing_db : env :=
  {| connect_db := Ok tt;
     query_weather := λ _ _, Raise DatabaseError;
     query_air := λ _ _, Ok [];
     write_file := λ _, Ok tt |}.

(** The command line with every option left at its default. *)
Definition default_args : args :=
  {| days_back := 45; cities := "1,2"; outdir := "figures";
     save_csv := false; save_excel := false |}.

(** Weather for city 1 at 09:00 and 10:00; air quality for city 1 at 10:00
    and 11:00 (hour buckets of one day). *)
Definition weather_9_10 (v9 v10 : wvals) : list wrow :=
  [ {| w_city_id := 1; w_timestamp := 9; w_vals := v9 |};
    {| w_city_id := 1; w_timestamp := 10; w_vals := v10 |} ].

Definition air_10_11 (v10 v11 : avals) : list arow :=
  [ {| a_city_id := 1; a_timestamp := 10; a_vals := v10 |};
    {| a_city_id := 1; a_timestamp := 11; a_vals := v11 |} ].

(** A merged row of city [cid] at hour [t] whose only measurement is an
    air-quality index. *)
Definition aqi_row (cid t : Z) (v : cell) : mrow :=
  {| city_id := cid; timestamp := t; wx := no_weather;
     air := {| aqi := v; pm2_5 := NaN; pm10 := NaN; co := NaN; no := NaN;
               no2 := NaN; o3 := NaN; so2 := NaN |};
     city_name := CITY_MAP !! cid |}.

(** Column "aqi" with the values 10, 20, 20, 30 for one city. *)
Definition aqi_10_20_20_30 (cid : Z) : list mrow :=
  [ aqi_row cid 0 (Num 10); aqi_row cid 1 (Num 20); aqi_row cid 2 (Num 20);
    aqi_row cid 3 (Num 30) ].

(** One city with a single reading. *)
Definition single_reading : list mrow := [ aqi_row 1 0 (Num 5) ].

(** Air quality for a city the lookup does not know. *)
Definition air_of_city_7 : list arow :=
  [ {| a_city_id := 7; a_timestamp := 0;
       a_vals := {| aqi := Num 5; pm2_5 := NaN; pm10 := NaN; co := NaN;
                    no := NaN; no2 := NaN; o3 := NaN; so2 := NaN |} |} ].

(** The body of an air-pollution answer with index 2. *)
Definition air_body : Collector.json :=
  Collector.JObj {[ "list"%string := Collector.JArr [ Collector.JObj {[
    "main"%string := Collector.JObj {[ "aqi"%string := Collector.JInt 2 ]};
    "components"%string := Collector.JObj {[
      "co"%string := Collector.JFloat (2403 # 10);
      "no"%string := Collector.JInt 0;
      "no2"%string := Collector.JFloat (51 # 10);
      "o3"%string := Collector.JFloat (687 # 10);
      "so2"%string := Collector.JFloat (21 # 10);
      "pm2_5"%string := Collector.JFloat (124 # 10);
      "pm10"%string := Collector.JFloat (153 # 10) ]} ]} ] ]}.

(** A world in which the weather endpoint answers 500 after one second and
    the air-pollution endpoint answers [air_body] after two. *)
Definition weather_down : Collector.world :=
  {| Collector.clock := 1000;
     Collector.upstream :=
       [ (λ _, (Collector.Reply 500 None, 1%Z));
         (λ _, (Collector.Reply 200 (Some air_body), 2%Z)) ];
     Collector.files := {[ Collector.CSV_FILE := [[Collector.Text "old"]] ]} |}.

End Scenario.

(** ** Notions the further properties are stated with *)
Module Derived.

(** The requests a run over the cities [l] makes, in the order it makes
    them: for each city the weather request, then the air-quality one. *)
Definition urls_of (key : string) (l : list (string * (Q * Q)))
  : list Collector.request :=
  c ← l; [Collector.weather_url key c.2.1 c.2.2;
          Collector.air_url key c.2.1 c.2.2].

(** The time the scripted answers take when they answer [urls] one after the
    other; a request past the end of the script fails at once. *)
Fixpoint time_spent (script : list (Collector.request -> Collector.reply * Z))
    (urls : list Collector.request) {struct urls} : Z :=
  match urls, script with
  | u :: urls', f :: script' => (Z.max 0 (f u).2 + time_spent script' urls')%Z
  | _, _ => 0%Z
  end.

(** How many rows of [l] have the key [k]. *)
Definition rows_at {A} (key : A -> Z * Z) (k : Z * Z) (l : list A) : nat :=
  length (filter (λ r, key r = k) l).

(** The pair a statistics row is for. *)
Definition stat_key (r : Reporter.stat_row) : string * Z :=
  (Reporter.st_variable r, Reporter.st_city_id r).

(** Every character of [s] satisfies [p]. *)
Fixpoint all_chars (p : ascii -> bool) (s : string) : bool :=
  match s with
  | EmptyString => true
  | String c s' => p c && all_chars p s'
  end.

Definition is_digit (c : ascii) : bool :=
  match Reporter.digit c with Some _ => true | None => false end.


(** The directory and the table files a run is to make, in the order of
    [main]. *)
Definition tables (a : Reporter.args) : list string :=
  [Reporter.outdir a]
  ++ (if Reporter.save_csv a
      then ["descriptive_stats.csv"; "merged_data_preview.csv"]%string else [])
  ++ (if Reporter.save_excel a then ["descriptive_stats.xlsx"%string] else []).

(** The figures, in the order [main] calls the plot functions. *)
Definition figures (a : Reporter.args) : list string :=
  Reporter.figure (Reporter.outdir a)
    <$> [ "line_temperature"; "line_aqi"; "box_aqi_by_city";
          "box_temperature_by_city"; "box_humidity_by_city";
          "hist_aqi_with_stats"; "hist_temperature_with_stats";
          "heatmap_corr" ]%string.

(** A step that asks for the paths [l] in order and stops at the first one
    that fails. *)
Definition writes (l : list string) (p : Reporter.prog unit) : Prop :=
  ∀ s, ∃ l1,
    Reporter.outputs (p s).2 = Reporter.outputs s ++ l1
    ∧ l1 `prefix_of` l
    ∧ ((p s).1 = Ok tt -> l1 = l).

(** Two merged tables with the same cities and the same numbers: the first
    has text that is no number, hour stamps and city names; the second has
    missing values in place of the text, no stamps and no names. *)
Definition junk_and_stamps : list Reporter.mrow :=
  [ {| Reporter.city_id := 1; Reporter.timestamp := 5;
       Reporter.wx := {| Reporter.temperature := pd.Junk "n/a";
                         Reporter.humidity := pd.Num 70;
                         Reporter.wind_speed := pd.NaN |};
       Reporter.air := Reporter.no_air;
       Reporter.city_name := Some "Hanoi"%string |};
    {| Reporter.city_id := 2; Reporter.timestamp := 5;
       Reporter.wx := {| Reporter.temperature := pd.Num 31;
                         Reporter.humidity := pd.Junk "--";
                         Reporter.wind_speed := pd.NaN |};
       Reporter.air := Reporter.no_air;
       Reporter.city_name := Some "Danang"%string |} ].

Definition missing_and_no_stamps : list Reporter.mrow :=
  [ {| Reporter.city_id := 1; Reporter.timestamp := 0;
       Reporter.wx := {| Reporter.temperature := pd.NaN;
                         Reporter.humidity := pd.Num 70;
                         Reporter.wind_speed := pd.NaN |};
       Reporter.air := Reporter.no_air; Reporter.city_name := None |};
    {| Reporter.city_id := 2; Reporter.timestamp := 0;
       Reporter.wx := {| Reporter.temperature := pd.Num 31;
                         Reporter.humidity := pd.NaN;
                         Reporter.wind_speed := pd.NaN |};
       Reporter.air := Reporter.no_air; Reporter.city_name := None |} ].

(** The statistics row of the readings 10, 20, 20, 30 of city 1. *)
Definition aqi_stats : Reporter.stat_row :=
  Reporter.stat_of 1 "Hanoi" "aqi"
    (Reporter.numeric_column "aqi" (Scenario.aqi_10_20_20_30 1)).



(** The measurement columns of each series. *)
Definition weather_cols : list string :=
  [ "temperature"; "humidity"; "wind_speed" ]%string.
Definition air_cols : list string :=
  [ "aqi"; "pm2_5"; "pm10"; "co"; "no"; "no2"; "o3"; "so2" ]%string.

(** The number a merged row contributes to column [col] of city [cid]. *)
Definition reading (cid : Z) (col : string) (r : Reporter.mrow) : option Q :=
  if decide (Reporter.city_id r = cid)
  then pd.to_numeric (Reporter.getcol col r) else None.


(** The entry of a weather or an air column in a row with the measurements
    [v]. *)
Definition weather_cell (col : string) (v : Reporter.wvals) : pd.cell :=
  Reporter.getcol col
    {| Reporter.city_id := 0; Reporter.timestamp := 0; Reporter.wx := v;
       Reporter.air := Reporter.no_air; Reporter.city_name := None |}.
Definition air_cell (col : string) (v : Reporter.avals) : pd.cell :=
  Reporter.getcol col
    {| Reporter.city_id := 0; Reporter.timestamp := 0;
       Reporter.wx := Reporter.no_weather; Reporter.air := v;
       Reporter.city_name := None |}.

(** Weather at two hours and air quality twice at the first of them. *)
Definition weather_two_hours : list Reporter.wrow :=
  [ {| Reporter.w_city_id := 1; Reporter.w_timestamp := 0;
       Reporter.w_vals := {| Reporter.temperature := pd.Num 10;
                             Reporter.humidity := pd.NaN;
                             Reporter.wind_speed := pd.NaN |} |};
    {| Reporter.w_city_id := 1; Reporter.w_timestamp := 1;
       Reporter.w_vals := {| Reporter.temperature := pd.Num 20;
                             Reporter.humidity := pd.NaN;
                             Reporter.wind_speed := pd.NaN |} |} ].
Definition air_twice_in_an_hour : list Reporter.arow :=
  [ {| Reporter.a_city_id := 1; Reporter.a_timestamp := 0;
       Reporter.a_vals := Reporter.no_air |};
    {| Reporter.a_city_id := 1; Reporter.a_timestamp := 0;
       Reporter.a_vals := Reporter.no_air |} ].

End Derived.

(** * Properties *)

(** ** Collector *)
Section collector_facts.
Import Collector.
Variable API_KEY : string.



(** The fields cannot be read as soon as one of them cannot. *)
Lemma weather_fields_raises (data : json) :
  raises (weather_fields data)
  <-> raises (m ← getitem data "main"; getitem m "temp")
      ∨ raises (m ← getitem data "main"; getitem m "humidity")
      ∨ raises (l ← getitem data "weather"; x ← getitem0 l; getitem x "main")
      ∨ raises (m ← getitem data "wind"; getitem m "speed").
Proof.
  unfold weather_fields.
  destruct (m ← getitem data "main"; getitem m "temp"); simpl; [|tauto].
  destruct (m ← getitem data "main"; getitem m "humidity"); simpl; [|tauto].
  destruct (l ← getitem data "weather"; x ← getitem0 l; getitem x "main");
    simpl; [|tauto].
  destruct (m ← getitem data "wind"; getitem m "speed"); simpl; tauto.
Qed.

Lemma air_fields_raises (data : json) :
  raises (air_fields data)
  <-> raises (m ← getitem data "main"; getitem m "aqi")
      ∨ ∃ k, k ∈ ["co"; "no"; "no2"; "o3"; "so2"; "pm2_5"; "pm10"]%string
             ∧ raises (m ← getitem data "components"; getitem m k).
Proof.
  unfold air_fields. split.
  - repeat match goal with
           | |- context [ mbind _ (?a ≫= ?f) ] =>
               let E := fresh "E" in
               destruct (a ≫= f) eqn:E; simpl;
               [|intros _; first [ by left
                                 | right; eexists; split; [|by rewrite E];
                                   set_solver ]]
           end.
    done.
  - intros [H|(k & Hk & H)].
    + by destruct (m ← getitem data "main"; getitem m "aqi").
    + destruct (m ← getitem data "main"; getitem m "aqi"); simpl; [|done].
      repeat (apply elem_of_cons in Hk as [->|Hk];
              [ repeat match goal with
                       | |- context [ mbind _ (?a ≫= ?f) ] =>
                           destruct (a ≫= f); simpl in *; try done
                       end |]).
      by apply elem_of_nil in Hk.
Qed.

Lemma requests_get_reply (url : request) (w : world) :
  (requests_get url w).1 = to_response (reply_of w url).
Proof. unfold requests_get, reply_of. by destruct (upstream w). Qed.

Lemma requests_get_files (url : request) (w : world) :
  files (requests_get url w).2 = files w.
Proof. unfold requests_get. by destruct (upstream w). Qed.

Lemma get_weather_files lat lon w :
  files (get_weather API_KEY lat lon w).2 = files w.
Proof.
  unfold get_weather.
  pose proof (requests_get_files (weather_url API_KEY lat lon) w) as H.
  destruct (requests_get _ w) as [r w']. by destruct (weather_try r).
Qed.

Lemma get_air_quality_files lat lon w :
  files (get_air_quality API_KEY lat lon w).2 = files w.
Proof.
  unfold get_air_quality.
  pose proof (requests_get_files (air_url API_KEY lat lon) w) as H.
  destruct (requests_get _ w) as [r w']. by destruct (air_try r).
Qed.

(** What each fetch returns is read off the answer to its own request. *)
Lemma get_weather_value lat lon w :
  (get_weather API_KEY lat lon w).1 =
    match weather_try (to_response (reply_of w (weather_url API_KEY lat lon))) with
    | Ok d => d
    | Raise _ => weather_sentinel
    end.
Proof.
  unfold get_weather. rewrite <- requests_get_reply.
  destruct (requests_get _ w) as [r w']; simpl. by destruct (weather_try r).
Qed.

Lemma get_air_quality_value lat lon w :
  (get_air_quality API_KEY lat lon w).1 =
    match air_try (to_response (reply_of w (air_url API_KEY lat lon))) with
    | Ok d => d
    | Raise _ => air_sentinel
    end.
Proof.
  unfold get_air_quality. rewrite <- requests_get_reply.
  destruct (requests_get _ w) as [r w']; simpl. by destruct (air_try r).
Qed.

(** The loop body writes exactly one row, after whatever was there. *)
Lemma crawl_city_file ts w city lat lon :
  files (crawl_city API_KEY ts w (city, (lat, lon))) !! CSV_FILE =
    Some (default [] (files w !! CSV_FILE)
          ++ [[Stamp ts; Text city]
              ++ weather_cells (get_weather API_KEY lat lon w).1
              ++ air_cells (get_air_quality API_KEY lat lon
                              (get_weather API_KEY lat lon w).2).1]).
Proof.
  unfold crawl_city.
  pose proof (get_weather_files lat lon w) as Hw.
  destruct (get_weather API_KEY lat lon w) as [wd w1]; simpl in *.
  pose proof (get_air_quality_files lat lon w1) as Ha.
  destruct (get_air_quality API_KEY lat lon w1) as [ad w2]; simpl in *.
  rewrite lookup_insert_eq, Ha, Hw. done.
Qed.


End collector_facts.



(** ** Reporter: the command line *)
Section cities_facts.
Import Reporter.

Lemma py_int_empty : py_int EmptyString = None.
Proof. reflexivity. Qed.

(** The loop over the tokens keeps exactly the integers read, in order. *)
Lemma cities_loop (l : list string) (acc : list Z) :
  foldl (λ city_ids x,
      let x := strip x in
      if bool_decide (x ≠ EmptyString) then
        match py_int x with
        | Some n => city_ids ++ [n]
        | None => city_ids
        end
      else city_ids) acc l
  = acc ++ omap (λ tok, py_int (strip tok)) l.
Proof.
  revert acc. induction l as [|x l IH]; intros acc; simpl.
  - by rewrite app_nil_r.
  - rewrite IH. case_bool_decide as Hx.
    + destruct (py_int (strip x)); [by rewrite <- app_assoc | done].
    + rewrite Hx, py_int_empty. done.
Qed.

End cities_facts.

(** C10. The city list is the list of the integers read from the
    comma-separated tokens, in order: a token that is blank or does not read
    as an integer leaves no trace (no error is raised), and when nothing is
    left the list is [1; 2].  So "abc" gives what the default "1,2" gives,
    and a run with one behaves as a run with the other. *)
Theorem parse_cities_drops_and_defaults :
  (∀ s : string,
     Reporter.parse_cities s =
       match omap (λ tok, Reporter.py_int (Reporter.strip tok))
                  (Reporter.split "," s) with
       | [] => [1; 2]%Z
       | ids => ids
       end)
  ∧ Reporter.parse_cities "abc" = Reporter.parse_cities "1,2"
  ∧ Reporter.parse_cities "1,2" = [1; 2]%Z
  ∧ Reporter.parse_cities "3,x, 4 ,,5.0" = [3; 4]%Z
  ∧ (∀ days dir csv excel e s,
       Reporter.main
         {| Reporter.days_back := days; Reporter.cities := "abc";
            Reporter.outdir := dir; Reporter.save_csv := csv;
            Reporter.save_excel := excel |} e s
       = Reporter.main
           {| Reporter.days_back := days; Reporter.cities := "1,2";
              Reporter.outdir := dir; Reporter.save_csv := csv;
              Reporter.save_excel := excel |} e s).
Proof.
  assert (Reporter.parse_cities "abc" = [1; 2]%Z) as Habc by by vm_compute.
  assert (Reporter.parse_cities "1,2" = [1; 2]%Z) as H12 by by vm_compute.
  split; [|split; [|split; [|split]]].
  - intros s. unfold Reporter.parse_cities. rewrite cities_loop.
    rewrite app_nil_l. by destruct (omap _ _).
  - by rewrite Habc, H12.
  - exact H12.
  - by vm_compute.
  - intros days dir csv excel e s. unfold Reporter.main.
    cbn [Reporter.cities Reporter.days_back Reporter.outdir
         Reporter.save_csv Reporter.save_excel].
    by rewrite Habc, H12.
Qed.

(** ** Reporter: the database connection *)
Section connection_facts.
Import Reporter.

Lemma keeps_ret {A} (a : A) : keeps (mret a).
Proof. done. Qed.

Lemma keeps_lift {A} (r : result A) : keeps (lift r).
Proof. done. Qed.

Lemma keeps_output e path : keeps (output e path).
Proof. intros s. unfold output. by destruct (write_file e path). Qed.

Lemma keeps_plot_line e df col dir : keeps (plot_line e df col dir).
Proof. unfold plot_line. destruct (bool_decide _); [apply keeps_output | done]. Qed.

Lemma keeps_plot_box_by_city e df col dir :
  keeps (plot_box_by_city e df col dir).
Proof.
  unfold plot_box_by_city.
  destruct (bool_decide _); [apply keeps_output | done].
Qed.

Lemma keeps_plot_hist_with_stats e df col dir :
  keeps (plot_hist_with_stats e df col dir).
Proof.
  unfold plot_hist_with_stats.
  destruct (bool_decide _); [apply keeps_output | done].
Qed.

Lemma keeps_plot_corr_heatmap e df dir : keeps (plot_corr_heatmap e df dir).
Proof. apply keeps_output. Qed.

Lemma keeps_ensure_outdir e dir : keeps (ensure_outdir e dir).
Proof. apply keeps_output. Qed.

Lemma keeps_bind {A B} (p : prog A) (k : A -> prog B) :
  keeps p -> (∀ a, keeps (k a)) -> keeps (p ≫= k).
Proof.
  intros Hp Hk s. unfold mbind, prog_bind. specialize (Hp s).
  destruct (p s) as [[a|x] s']; simpl in *; [|done].
  by rewrite Hk.
Qed.

Lemma keeps_for_each {A} (l : list A) (body : A -> prog unit) :
  (∀ a, keeps (body a)) -> keeps (for_each l body).
Proof.
  intros Hb. induction l as [|a l IH]; simpl.
  - apply keeps_ret.
  - apply keeps_bind; [apply Hb | by intros _].
Qed.

Lemma keeps_when b (p : prog unit) : keeps p -> keeps (when b p).
Proof. destruct b; [done | intros _; apply keeps_ret]. Qed.

Lemma closes_conn_close : closes_on_return conn_close.
Proof. by intros s _. Qed.

Lemma closes_bind {A} (p : prog A) (k : A -> prog unit) :
  keeps p -> (∀ a, closes_on_return (k a)) -> closes_on_return (p ≫= k).
Proof.
  intros Hp Hk s Hs. unfold mbind, prog_bind. specialize (Hp s).
  destruct (p s) as [[a|x] s'] eqn:E; simpl in *.
  - apply Hk. congruence.
  - congruence.
Qed.

End connection_facts.

Create HintDb conn.
#[local] Hint Resolve keeps_ret keeps_lift keeps_output keeps_bind
  keeps_for_each keeps_when keeps_plot_line keeps_plot_box_by_city
  keeps_plot_hist_with_stats keeps_plot_corr_heatmap keeps_ensure_outdir
  closes_conn_close : conn.

(** C9, as the code has it.  The connection is opened within the run.  A run
    that returns has closed it.  A run that raises after connecting ends with
    the connection still open: [conn.close()] is the last statement of
    [main] and nothing guards the steps before it. *)
Theorem main_closes_only_on_return (a : Reporter.args) (e : Reporter.env) :
  match Reporter.main a e Reporter.initial with
  | (Ok _, s) =>
      Reporter.connect_db e = Ok tt
      ∧ Reporter.connection s = Reporter.Closed
  | (Raise _, s) =>
      Reporter.connection s =
        match Reporter.connect_db e with
        | Ok _ => Reporter.Open
        | Raise _ => Reporter.NotConnected
        end
  end.
Proof.
  unfold Reporter.main.
  set (rest := (_ ≫= _) : Reporter.prog unit) at 2.
  assert (Reporter.closes_on_return rest) as Hrest.
  { unfold rest, Reporter.read_weather, Reporter.read_air.
    repeat (apply closes_bind; [solve [auto 8 with conn] | intros ?]).
    apply closes_conn_close. }
  unfold mbind at 1, Reporter.prog_bind, Reporter.connect.
  destruct (Reporter.connect_db e) as [[]|x]; simpl; [|done].
  specialize (Hrest {| Reporter.connection := Reporter.Open;
                       Reporter.outputs := [] |} eq_refl).
  destruct (rest _) as [[[]|x] s']; simpl in *; by auto.
Qed.

(** C9 fails as stated.  When the first query fails the run ends on that
    error with the connection open; so it does when the database returns no
    rows, where the statistics step raises [KeyError]. *)
Lemma main_leaves_connection_open :
  Reporter.main Scenario.default_args Scenario.failing_db Reporter.initial
  = (Raise DatabaseError,
     {| Reporter.connection := Reporter.Open; Reporter.outputs := [] |})
  ∧ Reporter.main Scenario.default_args Scenario.empty_db Reporter.initial
    = (Raise KeyError,
       {| Reporter.connection := Reporter.Open; Reporter.outputs := [] |}).
Proof. split; reflexivity. Qed.

(** ** Reporter: the merge *)
Section merge_facts.
Import pd Reporter.

(** Rows with distinct keys are told apart by their key. *)
Lemma NoDup_fmap_eq {A B} (f : A -> B) (l : list A) (x y : A) :
  NoDup (f <$> l) -> x ∈ l -> y ∈ l -> f x = f y -> x = y.
Proof.
  induction l as [|a l IH]; simpl; [by intros _ ?%elem_of_nil|].
  rewrite NoDup_cons, !elem_of_cons. intros [Ha Hl] [->|Hx] [->|Hy] Hxy; auto.
  - destruct Ha. rewrite Hxy. by apply list_elem_of_fmap_2.
  - destruct Ha. rewrite <- Hxy. by apply list_elem_of_fmap_2.
Qed.

(** With distinct keys, at most one row has a given key. *)
Lemma filter_key_NoDup {A} `{EqDecision B} (f : A -> B) (k : B) (l : list A) :
  NoDup (f <$> l) ->
  filter (λ a, f a = k) l = [] ∨ ∃ a, filter (λ a, f a = k) l = [a].
Proof.
  induction l as [|a l IH]; simpl; [by left|].
  rewrite NoDup_cons. intros [Ha Hl]. rewrite filter_cons.
  case_decide as Hk; [|by apply IH].
  right. exists a. f_equal.
  destruct (filter (λ a0, f a0 = k) l) as [|b l'] eqn:E; [done|].
  assert (b ∈ filter (λ a0, f a0 = k) l) as [Hb Hbl]%list_elem_of_filter
    by (rewrite E; left).
  destruct Ha. rewrite Hk, <- Hb. by apply list_elem_of_fmap_2.
Qed.

(** The keys of the joined rows: those of the weather series, then those
    only the air series has. *)
Lemma pd_merge_outer_keys df_w df_a :
  NoDup (a_key <$> df_a) ->
  j_key <$> pd_merge_outer df_w df_a
  = (w_key <$> df_w)
    ++ (a_key <$> filter (λ a, a_key a ∉ (w_key <$> df_w)) df_a).
Proof.
  intros Ha. unfold pd_merge_outer. rewrite fmap_app. f_equal.
  - induction df_w as [|w l IH]; [done|].
    rewrite bind_cons, fmap_app, IH, fmap_cons.
    destruct (filter_key_NoDup a_key (w_key w) df_a Ha) as [->|[a ->]]; done.
  - rewrite <- !list_fmap_compose. done.
Qed.

Lemma pd_merge_outer_elem j df_w df_a :
  j ∈ pd_merge_outer df_w df_a ->
  (∃ w, w ∈ df_w ∧ j_key j = w_key w ∧ j_wx j = w_vals w
        ∧ ((∃ a, a ∈ df_a ∧ a_key a = w_key w ∧ j_air j = a_vals a)
           ∨ ((∀ a, a ∈ df_a -> a_key a ≠ w_key w) ∧ j_air j = no_air)))
  ∨ (∃ a, a ∈ df_a ∧ (a_key a ∉ (w_key <$> df_w)) ∧ j_key j = a_key a
          ∧ j_wx j = no_weather ∧ j_air j = a_vals a).
Proof.
  unfold pd_merge_outer. rewrite elem_of_app. intros [H|H].
  - left. apply list_elem_of_bind in H as (w & Hj & Hw). exists w.
    split; [done|].
    destruct (filter _ df_a) as [|a ms] eqn:E.
    + apply list_elem_of_singleton in Hj as ->. repeat split. right.
      split; [|done]. intros a Hin Hk.
      assert (a ∈ filter (λ a, a_key a = w_key w) df_a) as Hf
        by by apply list_elem_of_filter.
      rewrite E in Hf. by apply elem_of_nil in Hf.
    + apply list_elem_of_fmap in Hj as (a' & -> & Hin). repeat split. left.
      rewrite <- E in Hin. apply list_elem_of_filter in Hin as [? ?]. eauto.
  - right. apply list_elem_of_fmap in H as (a & -> & Hin).
    apply list_elem_of_filter in Hin as [? ?]. exists a. done.
Qed.

Lemma merge_hourly_keys df_w df_a :
  m_key <$> merge_hourly df_w df_a
  = j_key <$> sort_values_key (pd_merge_outer df_w df_a).
Proof. unfold merge_hourly. by rewrite <- list_fmap_compose. Qed.

Lemma merge_hourly_elem m df_w df_a :
  m ∈ merge_hourly df_w df_a ->
  ∃ j, j ∈ pd_merge_outer df_w df_a ∧ m_key m = j_key j
       ∧ wx m = j_wx j ∧ air m = j_air j
       ∧ city_name m = CITY_MAP !! city_id m.
Proof.
  unfold merge_hourly. intros (j & -> & Hj)%list_elem_of_fmap.
  exists j. split; [|done].
  unfold sort_values_key in Hj. by rewrite merge_sort_Permutation in Hj.
Qed.

Lemma key_lt_of_le (l : list (Z * Z)) :
  StronglySorted key_le l -> NoDup l -> StronglySorted key_lt l.
Proof.
  induction 1 as [|k l Hs IH Hall]; [constructor|].
  rewrite NoDup_cons. intros [Hk Hl]. constructor; [by apply IH|].
  rewrite Forall_forall in Hall |- *. intros k' Hin.
  specialize (Hall k' Hin). assert (k ≠ k') as Hne by (by intros ->).
  destruct k as [c t], k' as [c' t']. unfold key_le, key_lt in *; simpl in *.
  assert (c ≠ c' ∨ t ≠ t') by (destruct (decide (c = c')); [right|left]; congruence).
  lia.
Qed.

End merge_facts.


(** C1. When each series has at most one row per (city, hour), the merged
    table is the outer join on (city_id, timestamp): its keys are exactly the
    keys of either series, each once; a merged row carries the weather
    measurements of the weather row of its key, or missing values when the
    weather series has no such row, and the same for the air measurements;
    and the rows are in strictly ascending order of (city_id, timestamp).
    In particular weather at 09:00 and 10:00 and air quality at 10:00 and
    11:00 for city 1 give three rows: 09:00 weather only, 10:00 both, 11:00
    air only. *)
Theorem merge_hourly_outer_join :
  (∀ (df_w : list Reporter.wrow) (df_a : list Reporter.arow),
     NoDup (Reporter.w_key <$> df_w) ->
     NoDup (Reporter.a_key <$> df_a) ->
     let df := Reporter.merge_hourly df_w df_a in
     (∀ k, k ∈ Reporter.m_key <$> df
           <-> k ∈ Reporter.w_key <$> df_w ∨ k ∈ Reporter.a_key <$> df_a)
     ∧ NoDup (Reporter.m_key <$> df)
     ∧ (∀ m, m ∈ df ->
          (∀ w, w ∈ df_w -> Reporter.w_key w = Reporter.m_key m ->
                Reporter.wx m = Reporter.w_vals w)
          ∧ (Reporter.m_key m ∉ Reporter.w_key <$> df_w ->
             Reporter.wx m = Reporter.no_weather)
          ∧ (∀ a, a ∈ df_a -> Reporter.a_key a = Reporter.m_key m ->
                  Reporter.air m = Reporter.a_vals a)
          ∧ (Reporter.m_key m ∉ Reporter.a_key <$> df_a ->
             Reporter.air m = Reporter.no_air))
     ∧ StronglySorted Reporter.key_lt (Reporter.m_key <$> df))
  ∧ (∀ (v9 v10 : Reporter.wvals) (a10 a11 : Reporter.avals),
       Reporter.merge_hourly (Scenario.weather_9_10 v9 v10)
                             (Scenario.air_10_11 a10 a11)
       = [ {| Reporter.city_id := 1; Reporter.timestamp := 9;
              Reporter.wx := v9; Reporter.air := Reporter.no_air;
              Reporter.city_name := Some "Hanoi"%string |};
           {| Reporter.city_id := 1; Reporter.timestamp := 10;
              Reporter.wx := v10; Reporter.air := a10;
              Reporter.city_name := Some "Hanoi"%string |};
           {| Reporter.city_id := 1; Reporter.timestamp := 11;
              Reporter.wx := Reporter.no_weather; Reporter.air := a11;
              Reporter.city_name := Some "Hanoi"%string |} ]).
Proof.
  split; [|by intros; vm_compute].
  intros df_w df_a Hw Ha df.
  assert (Reporter.m_key <$> df ≡ₚ
          (Reporter.w_key <$> df_w)
          ++ (Reporter.a_key <$>
                filter (λ a, Reporter.a_key a ∉ (Reporter.w_key <$> df_w)) df_a))
    as Hperm.
  { unfold df. rewrite merge_hourly_keys. unfold Reporter.sort_values_key.
    rewrite merge_sort_Permutation. by rewrite pd_merge_outer_keys. }
  assert (NoDup (Reporter.m_key <$> df)) as Hnd.
  { rewrite Hperm. apply NoDup_app. split; [done|]. split.
    - intros k Hk (a & -> & [Hn _]%list_elem_of_filter)%list_elem_of_fmap. done.
    - apply NoDup_fmap_2_strong.
      + intros a a' [_ Hin]%list_elem_of_filter [_ Hin']%list_elem_of_filter.
        by apply (NoDup_fmap_eq Reporter.a_key df_a).
      + apply NoDup_filter. by apply (NoDup_fmap_1 Reporter.a_key). }
  split; [|split; [done|split]].
  - intros k. rewrite Hperm, elem_of_app. split.
    + intros [?|(a & -> & [_ ?]%list_elem_of_filter)%list_elem_of_fmap]; [by left|].
      right. by apply list_elem_of_fmap_2.
    + intros [?|(a & -> & Hin)%list_elem_of_fmap]; [by left|].
      destruct (decide (Reporter.a_key a ∈ Reporter.w_key <$> df_w)); [by left|].
      right. apply list_elem_of_fmap_2. by apply list_elem_of_filter.
  - intros m (j & Hj & Hk & Hwx & Hair & _)%merge_hourly_elem.
    rewrite Hk, Hwx, Hair. clear Hk Hwx Hair.
    apply pd_merge_outer_elem in Hj
      as [(w & Hin & Hk & -> & Hcase)|(a & Hin & Hn & Hk & -> & ->)].
    + split; [|split; [|split]].
      * intros w' Hin' Hk'. f_equal. apply (NoDup_fmap_eq Reporter.w_key df_w); congruence.
      * intros []. rewrite Hk. by apply list_elem_of_fmap_2.
      * intros a Hin' Hk'. destruct Hcase as [(a' & Hina & Hka & ->)|[Hno _]].
        -- f_equal. apply (NoDup_fmap_eq Reporter.a_key df_a); congruence.
        -- destruct (Hno a Hin'). congruence.
      * intros Hn. destruct Hcase as [(a' & Hina & Hka & ->)|[_ ->]]; [|done].
        destruct Hn. rewrite Hk, <- Hka. by apply list_elem_of_fmap_2.
    + split; [|split; [|split]].
      * intros w Hin' Hk'. destruct Hn. rewrite <- Hk, <- Hk'.
        by apply list_elem_of_fmap_2.
      * done.
      * intros a' Hin' Hk'. f_equal.
        apply (NoDup_fmap_eq Reporter.a_key df_a); congruence.
      * intros []. rewrite Hk. by apply list_elem_of_fmap_2.
  - apply key_lt_of_le; [|done]. unfold df. rewrite merge_hourly_keys.
    apply StronglySorted_fmap with (R1 := Reporter.j_le); [done|].
    apply StronglySorted_merge_sort; apply _.
Qed.

(** The hypotheses of C1 hold of the scenario's series, and so do its
    conclusions. *)
Lemma merge_hourly_outer_join_scenario :
  let df_w := Scenario.weather_9_10 Reporter.no_weather Reporter.no_weather in
  let df_a := Scenario.air_10_11 Reporter.no_air Reporter.no_air in
  NoDup (Reporter.w_key <$> df_w)
  ∧ NoDup (Reporter.a_key <$> df_a)
  ∧ NoDup (Reporter.m_key <$> Reporter.merge_hourly df_w df_a)
  ∧ StronglySorted Reporter.key_lt
      (Reporter.m_key <$> Reporter.merge_hourly df_w df_a).
Proof.
  intros df_w df_a.
  assert (NoDup (Reporter.w_key <$> df_w)) as Hw
    by (apply (bool_decide_unpack _); vm_compute; exact I).
  assert (NoDup (Reporter.a_key <$> df_a)) as Ha
    by (apply (bool_decide_unpack _); vm_compute; exact I).
  split; [exact Hw|]. split; [exact Ha|].
  destruct (proj1 merge_hourly_outer_join df_w df_a Hw Ha) as (_ & Hn & _ & Hs).
  split; [exact Hn | exact Hs].
Defined.
(** ** The pandas reductions *)
Section reduction_facts.
Import pd.

Lemma foldl_Qmin_le (v : list Q) (a : Q) :
  (foldl Qmin a v <= a)%Q ∧ Forall (λ b, foldl Qmin a v <= b)%Q v.
Proof.
  revert a. induction v as [|b v IH]; intros a; simpl.
  - split; [apply Qle_refl | constructor].
  - destruct (IH (Qmin a b)) as [H1 H2]. split.
    + eapply Qle_trans; [exact H1 | apply Q.le_min_l].
    + constructor; [|done]. eapply Qle_trans; [exact H1 | apply Q.le_min_r].
Qed.

Lemma foldl_Qmax_ge (v : list Q) (a : Q) :
  (a <= foldl Qmax a v)%Q ∧ Forall (λ b, b <= foldl Qmax a v)%Q v.
Proof.
  revert a. induction v as [|b v IH]; intros a; simpl.
  - split; [apply Qle_refl | constructor].
  - destruct (IH (Qmax a b)) as [H1 H2]. split.
    + eapply Qle_trans; [apply Q.le_max_l | exact H1].
    + constructor; [|done]. eapply Qle_trans; [apply Q.le_max_r | exact H1].
Qed.





(** Every value lies between the minimum and the maximum. *)
Lemma min_max_bounds (a : Q) (v : list Q) :
  Forall (λ b, foldl Qmin a v <= b ∧ b <= foldl Qmax a v)%Q (a :: v).
Proof.
  destruct (foldl_Qmin_le v a) as [H1 H2], (foldl_Qmax_ge v a) as [H3 H4].
  constructor; [done|]. rewrite Forall_forall in *. intros b Hb. split; auto.
Qed.


End reduction_facts.
(** ** Reporter: the statistics table *)
Section stats_facts.
Import pd Reporter.

(** A loop that appends to an accumulator builds the concatenation of what
    each round appends. *)
Lemma foldl_append {A B} (step : list B -> A -> list B) (f : A -> list B)
    (l : list A) (acc : list B) :
  (∀ acc a, step acc a = acc ++ f a) ->
  foldl step acc l = acc ++ (l ≫= f).
Proof.
  intros Hstep. revert acc. induction l as [|a l IH]; intros acc; cbn [foldl].
  - by rewrite app_nil_r.
  - rewrite IH, Hstep, bind_cons. by rewrite <- app_assoc.
Qed.

Lemma stats_rows_bind (df : list mrow) :
  stats_rows df = groupby_city_id df ≫= group_stats df.
Proof.
  unfold stats_rows.
  rewrite (foldl_append _ (group_stats df)); [done|].
  intros acc [cid sub]. unfold group_stats; cbn [fst snd].
  apply foldl_append. intros acc' col. case_bool_decide; [|done].
  by rewrite app_nil_r.
Qed.

Lemma groupby_city_id_elem (df : list mrow) (g : Z * list mrow) :
  g ∈ groupby_city_id df
  <-> g.1 ∈ city_id <$> df ∧ g.2 = filter (λ r, city_id r = g.1) df.
Proof.
  unfold groupby_city_id. rewrite list_elem_of_fmap. split.
  - intros (cid & -> & Hin). rewrite merge_sort_Permutation in Hin.
    rewrite elem_of_remove_dups in Hin. by split.
  - intros [Hin Hg]. exists g.1. split.
    + destruct g; simpl in *; by subst.
    + rewrite merge_sort_Permutation. by rewrite elem_of_remove_dups.
Qed.

(** The rows of the loop: one for each city and recognised column with at
    least one number. *)
Lemma stats_rows_elem (df : list mrow) (r : stat_row) :
  r ∈ stats_rows df
  <-> ∃ cid col,
        col ∈ numeric_cols df
        ∧ observations df cid col ≠ []
        ∧ r = stat_of cid (city_label cid) col
                (numeric_column col (filter (λ r, city_id r = cid) df)).
Proof.
  rewrite stats_rows_bind, list_elem_of_bind. split.
  - intros ([cid sub] & Hr & [Hcid Hsub]%groupby_city_id_elem).
    simpl in *. subst sub. unfold group_stats in Hr.
    apply list_elem_of_bind in Hr as (col & Hr & Hcol). simpl in Hr.
    case_bool_decide as Hn; [by apply elem_of_nil in Hr|].
    apply list_elem_of_singleton in Hr. exists cid, col.
    split; [done|]. split; [|done].
    unfold observations. intros Hobs. apply Hn. unfold notna_sum.
    by rewrite Hobs.
  - intros (cid & col & Hcol & Hobs & ->).
    exists (cid, filter (λ r, city_id r = cid) df). split.
    + unfold group_stats. apply list_elem_of_bind. exists col.
      split; [|done]. simpl. rewrite bool_decide_eq_false_2; [left|].
      unfold notna_sum, observations in *. by destruct (dropna _).
    + apply groupby_city_id_elem. split; [|done]. simpl.
      unfold observations in Hobs.
      destruct (filter _ df) as [|m ms] eqn:E; [done|].
      assert (m ∈ filter (λ r, city_id r = cid) df) as [<- Hm]%list_elem_of_filter
        by (rewrite E; left).
      by apply list_elem_of_fmap_2.
Qed.

Lemma emitted_elem (df : list mrow) (r : stat_row) :
  r ∈ emitted df <-> r ∈ stats_rows df.
Proof.
  unfold emitted, compute_stats.
  destruct (stats_rows df) as [|r0 rows] eqn:E; [done|].
  by rewrite merge_sort_Permutation.
Qed.

Lemma compute_stats_raises (df : list mrow) :
  compute_stats df = Raise KeyError
  <-> ∀ cid col, col ∈ numeric_cols df -> observations df cid col = [].
Proof.
  unfold compute_stats. split.
  - destruct (stats_rows df) as [|r0 rows] eqn:E; [|done]. intros _ cid col Hcol.
    destruct (observations df cid col) as [|q v] eqn:Hobs; [done|].
    assert (stat_of cid (city_label cid) col
              (numeric_column col (filter (λ r, city_id r = cid) df))
            ∈ stats_rows df) as Hin.
    { apply stats_rows_elem. exists cid, col. by rewrite Hobs. }
    rewrite E in Hin. by apply elem_of_nil in Hin.
  - intros Hno. destruct (stats_rows df) as [|r0 rows] eqn:E; [done|].
    assert (r0 ∈ stats_rows df) as (cid & col & Hcol & Hobs & _)%stats_rows_elem
      by (rewrite E; left).
    destruct Hobs. by apply Hno.
Qed.

End stats_facts.

(** ** The mode *)
Section mode_facts.
Import pd Reporter.

Lemma occurrences_proper (a a' : Q) (v : list Q) :
  (a == a')%Q -> occurrences a v = occurrences a' v.
Proof.
  intros Ha. unfold occurrences. f_equal. apply list_filter_iff.
  intros b. by rewrite Ha.
Qed.

Lemma unique_elem (v : list Q) (b : Q) : b ∈ unique v -> b ∈ v.
Proof.
  induction v as [|a v IH]; simpl; [done|].
  rewrite !elem_of_cons, list_elem_of_filter. intros [->|[_ Hb]]; auto.
Qed.

(** Every value has a representative among the distinct values. *)
Lemma unique_repr (v : list Q) (a : Q) :
  a ∈ v -> ∃ a', a' ∈ unique v ∧ (a' == a)%Q.
Proof.
  induction v as [|c v IH]; [by intros ?%elem_of_nil|].
  rewrite elem_of_cons. intros [->|Ha]; simpl.
  - exists c. split; [left | reflexivity].
  - destruct (IH Ha) as (a' & Hin & Heq).
    destruct (decide (c == a')%Q) as [Hc|Hc].
    + exists c. split; [left | by rewrite Hc].
    + exists a'. split; [|done]. right. by apply list_elem_of_filter.
Qed.

(** The head of a sorted non-empty list is one of its values and lies below
    all of them. *)
Lemma merge_sort_head (l : list Q) :
  l ≠ [] ->
  ∃ m s, merge_sort Qle l = m :: s ∧ m ∈ l ∧ ∀ b, b ∈ l -> (m <= b)%Q.
Proof.
  intros Hl. pose proof (merge_sort_Permutation Qle l) as Hp.
  pose proof (StronglySorted_merge_sort Qle l) as Hs.
  destruct (merge_sort Qle l) as [|m s].
  - apply Permutation_nil_l in Hp. by subst.
  - exists m, s. split; [done|]. split.
    + rewrite <- Hp. left.
    + intros b. rewrite <- Hp, elem_of_cons. intros [->|Hb].
      * apply Qle_refl.
      * apply StronglySorted_inv in Hs as [_ Hall].
        rewrite Forall_forall in Hall. by apply Hall.
Qed.

End mode_facts.

(** C4. On a series with at least one number, [safe_mode] returns one of the
    values of highest frequency, and the smallest of them: no value occurs
    more often, and every value that occurs as often is at least as large.
    This is the mode the statistics row carries. *)
Theorem safe_mode_smallest_most_frequent (x : pd.series) :
  pd.dropna x ≠ [] ->
  ∃ m : Q,
    Reporter.safe_mode x = pd.num m
    ∧ m ∈ pd.dropna x
    ∧ (∀ b, b ∈ pd.dropna x ->
            (pd.occurrences b (pd.dropna x) ≤ pd.occurrences m (pd.dropna x))%nat)
    ∧ (∀ b, b ∈ pd.dropna x ->
            pd.occurrences b (pd.dropna x) = pd.occurrences m (pd.dropna x) ->
            (m <= b)%Q)
    ∧ (∀ cid cname col,
         Reporter.st_mode (Reporter.stat_of cid cname col x) = pd.num (Qred m)).
Proof.
  intros Hv. unfold Reporter.safe_mode, pd.mode.
  set (v := pd.dropna x) in *.
  set (top := max_list ((λ a, pd.occurrences a v) <$> v)).
  assert (∀ b, b ∈ v -> (pd.occurrences b v ≤ top)%nat) as Hle.
  { intros b Hb. apply max_list_elem_of_le.
    by apply (list_elem_of_fmap_2 (λ a, pd.occurrences a v)). }
  assert (∃ a, a ∈ v ∧ pd.occurrences a v = top) as (a & Ha & Hatop).
  { assert (top ∈ (λ a, pd.occurrences a v) <$> v) as Hin.
    { apply max_list_elem_of. by destruct v. }
    apply list_elem_of_fmap in Hin as (a & -> & Ha). by exists a. }
  set (l := filter (λ a, pd.occurrences a v = top) (pd.unique v)).
  assert (l ≠ []) as Hl.
  { destruct (unique_repr v a Ha) as (a' & Hin & Heq).
    assert (a' ∈ l) as Hal.
    { apply list_elem_of_filter. split; [|done].
      by rewrite (occurrences_proper a' a). }
    intros E. rewrite E in Hal. by apply elem_of_nil in Hal. }
  destruct (merge_sort_head l Hl) as (m & s & Hs & Hm & Hmin).
  apply list_elem_of_filter in Hm as [Hmtop Hmu].
  exists m. rewrite Hs. split; [done|]. split; [by apply unique_elem|].
  split; [by intros b Hb; rewrite Hmtop; apply Hle|]. split.
  - intros b Hb Hocc. destruct (unique_repr v b Hb) as (b' & Hin & Heq).
    rewrite <- Heq. apply Hmin. apply list_elem_of_filter. split; [|done].
    rewrite (occurrences_proper b' b) by done. congruence.
  - intros cid cname col. cbn [Reporter.stat_of Reporter.st_mode].
    unfold Reporter.safe_mode, pd.mode. fold v top l. by rewrite Hs.
Qed.

(** C4 on a series with a tie: 3 and 1 both occur twice, and 1 is the
    mode. *)
Lemma safe_mode_smallest_most_frequent_tie :
  let x := [Some 3%Q; Some 1%Q; None; Some 1%Q; Some 3%Q; Some 2%Q] in
  pd.dropna x ≠ []
  ∧ Reporter.safe_mode x = pd.num 1
  ∧ ∃ m : Q,
      Reporter.safe_mode x = pd.num m
      ∧ m ∈ pd.dropna x
      ∧ (∀ b, b ∈ pd.dropna x ->
              (pd.occurrences b (pd.dropna x) ≤ pd.occurrences m (pd.dropna x))%nat)
      ∧ (∀ b, b ∈ pd.dropna x ->
              pd.occurrences b (pd.dropna x) = pd.occurrences m (pd.dropna x) ->
              (m <= b)%Q)
      ∧ (∀ cid cname col,
           Reporter.st_mode (Reporter.stat_of cid cname col x) = pd.num (Qred m)).
Proof.
  intros x. split; [discriminate|]. split; [reflexivity|].
  apply (safe_mode_smallest_most_frequent x). discriminate.
Defined.
(** ** Reporter: one group *)
Section group_facts.
Import pd Reporter.

Lemma remove_dups_same (cid : Z) (l : list Z) :
  Forall (λ c, c = cid) l -> l ≠ [] -> remove_dups l = [cid].
Proof.
  induction 1 as [|c l -> Hl IH]; [done|]. intros _. cbn [remove_dups].
  destruct l as [|c' l'].
  - case_decide as Hin; [by apply elem_of_nil in Hin | done].
  - case_decide as Hin; [by apply IH|].
    destruct Hin. apply Forall_cons in Hl as [-> _]. left.
Qed.

(** A table of one city is one group. *)
Lemma groupby_one_city (cid : Z) (df : list mrow) :
  Forall (λ r, city_id r = cid) df -> df ≠ [] ->
  groupby_city_id df = [(cid, df)].
Proof.
  intros Hall Hne. unfold groupby_city_id.
  rewrite (remove_dups_same cid).
  - cbn. f_equal. f_equal. induction Hall as [|r l Hr _ IH]; [done|].
    rewrite filter_cons_True by done. f_equal.
    destruct l; [done|]. by apply IH.
  - by apply Forall_fmap.
  - by destruct df.
Qed.

End group_facts.

(** C3. The statistics of column "aqi" with the values 10, 20, 20, 30 for
    one city are a single row: count 4, mean 20, median 20, mode 20, standard
    deviation the square root of 200/3 (the squared deviations 100, 0, 0, 100
    over n - 1 = 3), which lies between 8.1649 and 8.1650, min 10 and max 30.
    The count is an integer and the six statistics are floats. *)
Theorem stats_of_10_20_20_30 (cid : Z) :
  Reporter.compute_stats (Scenario.aqi_10_20_20_30 cid)
  = Ok [ {| Reporter.st_city_id := cid;
            Reporter.st_city_name := Reporter.city_label cid;
            Reporter.st_variable := "aqi";
            Reporter.st_count := 4;
            Reporter.st_mean := pd.num 20;
            Reporter.st_median := pd.num 20;
            Reporter.st_mode := pd.num 20;
            Reporter.st_std := pd.root (200 # 3);
            Reporter.st_min := pd.num 10;
            Reporter.st_max := pd.num 30 |} ]
  ∧ ((81649 # 10000) * (81649 # 10000) <= 200 # 3)%Q
  ∧ (200 # 3 < (81650 # 10000) * (81650 # 10000))%Q.
Proof.
  split; [|split; [by vm_compute | by vm_compute]].
  unfold Reporter.compute_stats. rewrite stats_rows_bind.
  rewrite (groupby_one_city cid); [|by repeat constructor | done].
  rewrite bind_cons. unfold Reporter.group_stats. cbn [fst snd].
  unfold Scenario.aqi_10_20_20_30, Scenario.aqi_row.
  generalize (Reporter.city_label cid) (Reporter.CITY_MAP !! cid).
  intros label name. by vm_compute.
Qed.
(** The same scenario in float64: every value is exact except the standard
    deviation, the float64 nearest to the square root of 200/3. *)
Example float64_stats_of_10_20_20_30 :
  let v := [10; 20; 20; 30]%float in
  f64.mean v = 20%float
  ∧ f64.min v = 10%float
  ∧ f64.max v = 30%float
  ∧ f64.std 1 v = 8.16496580927726%float.
Proof. repeat split; reflexivity. Qed.

(** ** Reporter: a group with a single number *)
Section single_facts.
Import pd Reporter.
Variables (x : series) (v : Q).
Hypothesis Hx : dropna x = [v].

Lemma single_mean : to_float (mean x) = num (Qred v).
Proof using Hx.
  unfold mean. rewrite Hx. cbn [to_float]. f_equal. apply Qred_complete.
  unfold Qsum, Qlen. cbn [foldr length].
  change (inject_Z (Z.of_nat 1)) with 1%Q. field.
Qed.

Lemma single_median : to_float (median x) = num (Qred v).
Proof using Hx. unfold median. by rewrite Hx. Qed.

Lemma single_mode : to_float (safe_mode x) = num (Qred v).
Proof using Hx.
  assert (occurrences v [v] = 1%nat) as Hocc.
  { unfold occurrences. by rewrite filter_cons_True by reflexivity. }
  unfold safe_mode, mode. rewrite Hx. cbn [fmap list_fmap unique].
  rewrite Hocc. cbn [max_list max_list_with Nat.max id filter list_filter].
  by rewrite decide_True by done.
Qed.

Lemma single_std : to_float (std 1 x) = nan.
Proof using Hx. unfold std. by rewrite Hx. Qed.

Lemma single_min : to_float (min x) = num (Qred v).
Proof using Hx. unfold min. by rewrite Hx. Qed.

Lemma single_max : to_float (max x) = num (Qred v).
Proof using Hx. unfold max. by rewrite Hx. Qed.

End single_facts.

(** C5, as the code has it.  A city and column with exactly one numeric
    observation [v] get a row like any other: the table is returned and
    holds the row with count 1, mean, median, mode, min and max all [v], and
    a standard deviation that is NaN.  The row is not left out and nothing
    in it marks it. *)
Theorem single_observation_row (df : list Reporter.mrow) (cid : Z)
    (col : string) (v : Q) :
  col ∈ Reporter.numeric_cols df ->
  Reporter.observations df cid col = [v] ->
  ∃ stats,
    Reporter.compute_stats df = Ok stats
    ∧ {| Reporter.st_city_id := cid;
         Reporter.st_city_name := Reporter.city_label cid;
         Reporter.st_variable := col;
         Reporter.st_count := 1;
         Reporter.st_mean := pd.num (Qred v);
         Reporter.st_median := pd.num (Qred v);
         Reporter.st_mode := pd.num (Qred v);
         Reporter.st_std := pd.nan;
         Reporter.st_min := pd.num (Qred v);
         Reporter.st_max := pd.num (Qred v) |} ∈ stats.
Proof.
  intros Hcol Hobs.
  set (x := Reporter.numeric_column col
              (filter (λ r, Reporter.city_id r = cid) df)).
  assert (Reporter.stat_of cid (Reporter.city_label cid) col x
          ∈ Reporter.emitted df) as Hin.
  { apply emitted_elem, stats_rows_elem. exists cid, col. by rewrite Hobs. }
  unfold Reporter.stat_of in Hin. unfold Reporter.observations in Hobs.
  fold x in Hobs.
  rewrite (single_mean x v), (single_median x v), (single_mode x v),
    (single_std x v), (single_min x v), (single_max x v) in Hin by done.
  unfold pd.notna_sum in Hin. rewrite Hobs in Hin.
  unfold Reporter.emitted in Hin.
  destruct (Reporter.compute_stats df) as [stats|e];
    [by exists stats | by apply elem_of_nil in Hin].
Qed.

(** C5 on a table with one reading. *)
Lemma single_observation_row_scenario :
  "aqi"%string ∈ Reporter.numeric_cols Scenario.single_reading
  ∧ Reporter.observations Scenario.single_reading 1 "aqi" = [5%Q]
  ∧ ∃ stats,
      Reporter.compute_stats Scenario.single_reading = Ok stats
      ∧ {| Reporter.st_city_id := 1;
           Reporter.st_city_name := Reporter.city_label 1;
           Reporter.st_variable := "aqi";
           Reporter.st_count := 1;
           Reporter.st_mean := pd.num (Qred 5);
           Reporter.st_median := pd.num (Qred 5);
           Reporter.st_mode := pd.num (Qred 5);
           Reporter.st_std := pd.nan;
           Reporter.st_min := pd.num (Qred 5);
           Reporter.st_max := pd.num (Qred 5) |} ∈ stats.
Proof.
  assert ("aqi"%string ∈ Reporter.numeric_cols Scenario.single_reading) as Hcol
    by (apply (bool_decide_unpack _); vm_compute; exact I).
  split; [exact Hcol|]. split; [reflexivity|].
  exact (single_observation_row Scenario.single_reading 1 "aqi" 5 Hcol eq_refl).
Defined.

(** C5 fails as stated: the single reading is neither left out nor marked.
    The table holds its row, an ordinary one whose standard deviation is
    NaN. *)
Lemma single_observation_is_emitted_unflagged :
  Reporter.compute_stats Scenario.single_reading
  = Ok [ {| Reporter.st_city_id := 1;
            Reporter.st_city_name := "Hanoi";
            Reporter.st_variable := "aqi";
            Reporter.st_count := 1;
            Reporter.st_mean := pd.num 5;
            Reporter.st_median := pd.num 5;
            Reporter.st_mode := pd.num 5;
            Reporter.st_std := pd.nan;
            Reporter.st_min := pd.num 5;
            Reporter.st_max := pd.num 5 |} ].
Proof. by vm_compute. Qed.

(** C6. A city id the lookup does not know is named by its decimal string in
    the statistics table only.  In the merged table [Series.map] with a dict
    leaves the name of such a row missing: city 7 gets NaN there and "7" in
    the statistics. *)
Theorem city_name_of_unknown_id :
  (∀ df_w df_a m,
     m ∈ Reporter.merge_hourly df_w df_a ->
     Reporter.city_name m = Reporter.CITY_MAP !! Reporter.city_id m)
  ∧ (∀ df r,
       r ∈ Reporter.emitted df ->
       Reporter.st_city_name r
       = default (pretty (Reporter.st_city_id r))
                 (Reporter.CITY_MAP !! Reporter.st_city_id r))
  ∧ Reporter.city_name <$> Reporter.merge_hourly [] Scenario.air_of_city_7
    = [None]
  ∧ Reporter.st_city_name
      <$> Reporter.emitted (Reporter.merge_hourly [] Scenario.air_of_city_7)
    = ["7"%string].
Proof.
  split; [|split; [|split; by vm_compute]].
  - by intros df_w df_a m (j & _ & _ & _ & _ & ?)%merge_hourly_elem.
  - by intros df r (cid & col & _ & _ & ->)%emitted_elem%stats_rows_elem.
Qed.

(** ** The scenarios, evaluated *)

(** The weather endpoint is down: the row of the city holds the sentinel in
    its four weather cells and the air-quality values in the other eight,
    after the row the file already held. *)
Example crawl_city_weather_down :
  Collector.files
    (Collector.crawl_city "key" 26200 Scenario.weather_down
       ("Hanoi"%string, (210285 # 10000, 1058542 # 10000)%Q))
    !! Collector.CSV_FILE
  = Some [ [Collector.Text "old"];
           [ Collector.Stamp 26200; Collector.Text "Hanoi";
             Collector.Value (Collector.JStr "N/A");
             Collector.Value (Collector.JStr "N/A");
             Collector.Value (Collector.JStr "N/A");
             Collector.Value (Collector.JStr "N/A");
             Collector.Value (Collector.JInt 2);
             Collector.Value (Collector.JFloat (2403 # 10));
             Collector.Value (Collector.JInt 0);
             Collector.Value (Collector.JFloat (51 # 10));
             Collector.Value (Collector.JFloat (687 # 10));
             Collector.Value (Collector.JFloat (21 # 10));
             Collector.Value (Collector.JFloat (124 # 10));
             Collector.Value (Collector.JFloat (153 # 10)) ] ].
Proof. by vm_compute. Qed.

(** A whole run in that world: the old content is gone, Hanoi's weather is
    the sentinel, and Danang, for which the upstream no longer answers, is
    the sentinel throughout.  Both rows carry the time the run started at,
    although three seconds pass before Danang's turn. *)
Example crawl_and_save_weather_down :
  Collector.files (Collector.crawl_and_save "key" Scenario.weather_down)
    !! Collector.CSV_FILE
  = Some [ Collector.header;
           [Collector.Stamp 26200; Collector.Text "Hanoi"]
             ++ replicate 4 (Collector.Value (Collector.JStr "N/A"))
             ++ Collector.air_cells
                  {| Collector.aqi := Collector.JInt 2;
                     Collector.co := Collector.JFloat (2403 # 10);
                     Collector.no := Collector.JInt 0;
                     Collector.no2 := Collector.JFloat (51 # 10);
                     Collector.o3 := Collector.JFloat (687 # 10);
                     Collector.so2 := Collector.JFloat (21 # 10);
                     Collector.pm2_5 := Collector.JFloat (124 # 10);
                     Collector.pm10 := Collector.JFloat (153 # 10) |};
           [Collector.Stamp 26200; Collector.Text "Danang"]
             ++ replicate 12 (Collector.Value (Collector.JStr "N/A")) ]
  ∧ Collector.clock (Collector.crawl_and_save "key" Scenario.weather_down)
    = 1003%Z.
Proof. split; by vm_compute. Qed.

(** * Further properties *)
Import Derived.

(** ** Collector: what a fetch reads and what a run touches *)
Section collector_more.
Import Collector.
Variable API_KEY : string.

Lemma requests_get_upstream (url : request) (w : world) :
  upstream (requests_get url w).2 = drop 1 (upstream w).
Proof.
  unfold requests_get.
  destruct (upstream w) as [|f rest] eqn:E; simpl; [by rewrite E | by rewrite drop_0].
Qed.

Lemma requests_get_clock (url : request) (w : world) :
  clock (requests_get url w).2 =
    (clock w + match upstream w with
               | [] => 0
               | f :: _ => Z.max 0 (f url).2
               end)%Z.
Proof. unfold requests_get. destruct (upstream w); simpl; lia. Qed.

Lemma get_weather_world lat lon w :
  (get_weather API_KEY lat lon w).2
  = (requests_get (weather_url API_KEY lat lon) w).2.
Proof.
  unfold get_weather. destruct (requests_get _ w) as [r w'].
  by destruct (weather_try r).
Qed.

Lemma get_air_quality_world lat lon w :
  (get_air_quality API_KEY lat lon w).2
  = (requests_get (air_url API_KEY lat lon) w).2.
Proof.
  unfold get_air_quality. destruct (requests_get _ w) as [r w'].
  by destruct (air_try r).
Qed.

Lemma crawl_city_world ts w c :
  upstream (crawl_city API_KEY ts w c) = drop 2 (upstream w)
  ∧ clock (crawl_city API_KEY ts w c)
    = (clock w + time_spent (upstream w) (urls_of API_KEY [c]))%Z.
Proof.
  destruct c as [city [lat lon]]. unfold crawl_city.
  pose proof (get_weather_world lat lon w) as Hw.
  destruct (get_weather API_KEY lat lon w) as [wd w1]; simpl in Hw; subst w1.
  set (w1 := (requests_get _ w).2).
  pose proof (get_air_quality_world lat lon w1) as Ha.
  destruct (get_air_quality API_KEY lat lon w1) as [ad w2]; simpl in Ha; subst w2.
  unfold writerow; cbn [upstream clock].
  rewrite requests_get_upstream, requests_get_clock. unfold w1.
  rewrite requests_get_upstream, requests_get_clock.
  destruct (upstream w) as [|f [|g rest]]; simpl; split; try done; lia.
Qed.



Lemma crawl_city_other_files ts w c path :
  path ≠ CSV_FILE ->
  files (crawl_city API_KEY ts w c) !! path = files w !! path.
Proof.
  intros Hp. destruct c as [city [lat lon]]. unfold crawl_city.
  pose proof (get_weather_files API_KEY lat lon w) as Hw.
  destruct (get_weather API_KEY lat lon w) as [wd w1]; simpl in Hw.
  pose proof (get_air_quality_files API_KEY lat lon w1) as Ha.
  destruct (get_air_quality API_KEY lat lon w1) as [ad w2]; simpl in Ha.
  unfold writerow; cbn [files]. rewrite lookup_insert_ne by done.
  by rewrite Ha, Hw.
Qed.

End collector_more.

Section fetch_facts.
Import Collector.

Lemma getitem_Ok (v : json) (k : string) (x : json) :
  getitem v k = Ok x <-> ∃ m, v = JObj m ∧ m !! k = Some x.
Proof.
  unfold getitem. split.
  - destruct v; try done. destruct (m !! k) eqn:E; [|done].
    intros [= ->]. eauto.
  - intros (m & -> & ->). done.
Qed.

Lemma getitem0_Ok_obj (v : json) (m : gmap string json) :
  getitem0 v = Ok (JObj m) <-> ∃ others, v = JArr (JObj m :: others).
Proof.
  unfold getitem0. split.
  - destruct v as [| | | |s|l|]; try done.
    + by destruct s.
    + destruct l as [|x l]; [done|]. intros [= ->]. eauto.
  - by intros (others & ->).
Qed.

Lemma bind_Ok {A B} (m : result A) (f : A -> result B) (b : B) :
  m ≫= f = Ok b <-> ∃ a, m = Ok a ∧ f a = Ok b.
Proof.
  destruct m as [a|e]; simpl; split; try done.
  - eauto.
  - by intros (a' & [= <-] & ?).
  - by intros (a' & ? & _).
Qed.

Lemma weather_try_succeeds_iff (r : reply) (d : weather_dict) :
  weather_try (to_response r) = Ok d
  <-> ∃ (st : Z) (m mm wm wi : gmap string json) (others : list json),
        r = Reply st (Some (JObj m))
        ∧ ¬ (400 ≤ st < 600)%Z
        ∧ m !! "main"%string = Some (JObj mm)
        ∧ mm !! "temp"%string = Some (temp d)
        ∧ mm !! "humidity"%string = Some (humidity d)
        ∧ m !! "weather"%string = Some (JArr (JObj wm :: others))
        ∧ wm !! "main"%string = Some (weather d)
        ∧ m !! "wind"%string = Some (JObj wi)
        ∧ wi !! "speed"%string = Some (wind_speed d).
Proof.
  split.
  - destruct r as [|st [data|]]; [done| |].
    2:{ unfold weather_try, raise_for_status; simpl. by case_bool_decide. }
    unfold weather_try, raise_for_status; simpl. case_bool_decide as Hst; [done|].
    simpl. unfold weather_fields.
    intros (t & (j1 & (m & -> & Hmain)%getitem_Ok & (mm & -> & Ht)%getitem_Ok)%bind_Ok
              & H)%bind_Ok.
    apply bind_Ok in H as (h & (j2 & (m' & [= <-] & Hmain')%getitem_Ok
                                   & (mm' & -> & Hh)%getitem_Ok)%bind_Ok & H).
    rewrite Hmain in Hmain'. injection Hmain' as <-.
    apply bind_Ok in H as (c & (l & (m' & [= <-] & Hw)%getitem_Ok & H0)%bind_Ok & H).
    apply bind_Ok in H0 as (x & Hx & (wm & -> & Hc)%getitem_Ok).
    apply getitem0_Ok_obj in Hx as (others & ->).
    apply bind_Ok in H as (s & (j3 & (m' & [= <-] & Hwind)%getitem_Ok
                                   & (wi & -> & Hs)%getitem_Ok)%bind_Ok & [= <-]).
    exists st, m, mm, wm, wi, others. done.
  - intros (st & m & mm & wm & wi & others & -> & Hst & Hmain & Ht & Hh & Hw
              & Hc & Hwind & Hs).
    unfold weather_try, raise_for_status, res_json;
      cbn [to_response fst snd mbind result_bind].
    rewrite bool_decide_eq_false_2 by done.
    unfold weather_fields, getitem, getitem0; cbn [mbind result_bind].
    rewrite Hmain; cbn [mbind result_bind]. rewrite Ht, Hh; cbn [mbind result_bind].
    rewrite Hw; cbn [mbind result_bind]. rewrite Hc; cbn [mbind result_bind].
    rewrite Hwind; cbn [mbind result_bind]. rewrite Hs. by destruct d.
Qed.

Ltac open_binds :=
  repeat (match goal with
          | H : _ ≫= _ = Ok _ |- _ => apply bind_Ok in H as (? & ? & ?)
          | H : getitem _ _ = Ok _ |- _ => apply getitem_Ok in H as (? & ? & ?)
          | H : getitem0 _ = Ok (JObj _) |- _ =>
              apply getitem0_Ok_obj in H as (? & ?)
          end; simplify_option_eq).

Lemma air_try_succeeds_iff (r : reply) (d : air_dict) :
  air_try (to_response r) = Ok d
  <-> ∃ (st : Z) (m entry mm cm : gmap string json) (others : list json),
        r = Reply st (Some (JObj m))
        ∧ ¬ (400 ≤ st < 600)%Z
        ∧ m !! "list"%string = Some (JArr (JObj entry :: others))
        ∧ entry !! "main"%string = Some (JObj mm)
        ∧ mm !! "aqi"%string = Some (aqi d)
        ∧ entry !! "components"%string = Some (JObj cm)
        ∧ cm !! "co"%string = Some (co d)
        ∧ cm !! "no"%string = Some (no d)
        ∧ cm !! "no2"%string = Some (no2 d)
        ∧ cm !! "o3"%string = Some (o3 d)
        ∧ cm !! "so2"%string = Some (so2 d)
        ∧ cm !! "pm2_5"%string = Some (pm2_5 d)
        ∧ cm !! "pm10"%string = Some (pm10 d).
Proof.
  split.
  - destruct r as [|st [data|]]; [done| |].
    2:{ unfold air_try, raise_for_status; simpl. by case_bool_decide. }
    unfold air_try, raise_for_status; simpl. case_bool_decide as Hst; [done|].
    simpl. unfold air_data, air_fields. intros H. open_binds.
    repeat case_match; simplify_eq.
    exists st. repeat eexists; eauto.
  - intros (st & m & entry & mm & cm & others & -> & Hst & Hl & Hmain & Haqi
              & Hcomp & Hco & Hno & Hno2 & Ho3 & Hso2 & Hpm25 & Hpm10).
    unfold air_try, raise_for_status, res_json;
      cbn [to_response fst snd mbind result_bind].
    rewrite bool_decide_eq_false_2 by done.
    unfold air_data, air_fields, getitem, getitem0; cbn [mbind result_bind].
    rewrite Hl; cbn [mbind result_bind].
    rewrite Hmain; cbn [mbind result_bind]. rewrite Haqi; cbn [mbind result_bind].
    rewrite Hcomp; cbn [mbind result_bind].
    rewrite Hco, Hno, Hno2, Ho3, Hso2, Hpm25, Hpm10; cbn [mbind result_bind].
    by destruct d.
Qed.
End fetch_facts.

Section run_facts.
Import Collector.
Variable API_KEY : string.

(** Two worlds with the same clock, the same upstream and the same output
    file stay so through the loop. *)
Lemma crawl_city_same ts (w w' : world) c :
  clock w = clock w' -> upstream w = upstream w' ->
  files w !! CSV_FILE = files w' !! CSV_FILE ->
  clock (crawl_city API_KEY ts w c) = clock (crawl_city API_KEY ts w' c)
  ∧ upstream (crawl_city API_KEY ts w c) = upstream (crawl_city API_KEY ts w' c)
  ∧ files (crawl_city API_KEY ts w c) !! CSV_FILE
    = files (crawl_city API_KEY ts w' c) !! CSV_FILE.
Proof.
  intros Hc Hu Hf. destruct c as [city [lat lon]].
  destruct (crawl_city_world API_KEY ts w (city, (lat, lon))) as [-> ->].
  destruct (crawl_city_world API_KEY ts w' (city, (lat, lon))) as [-> ->].
  rewrite Hc, Hu. split; [done|]. split; [done|].
  rewrite !crawl_city_file, Hf. do 4 f_equal.
  rewrite !get_weather_value, !get_air_quality_value.
  unfold reply_of. rewrite !get_weather_world, !requests_get_upstream, Hu. done.
Qed.

Lemma crawl_cities_same ts (l : list (string * (Q * Q))) (w w' : world) :
  clock w = clock w' -> upstream w = upstream w' ->
  files w !! CSV_FILE = files w' !! CSV_FILE ->
  files (foldl (crawl_city API_KEY ts) w l) !! CSV_FILE
  = files (foldl (crawl_city API_KEY ts) w' l) !! CSV_FILE.
Proof.
  revert w w'. induction l as [|c l IH]; intros w w' Hc Hu Hf; [done|].
  cbn [foldl]. destruct (crawl_city_same ts w w' c Hc Hu Hf) as (? & ? & ?).
  by apply IH.
Qed.

Lemma crawl_cities_other_files ts (l : list (string * (Q * Q))) w path :
  path ≠ CSV_FILE ->
  files (foldl (crawl_city API_KEY ts) w l) !! path = files w !! path.
Proof.
  intros Hp. revert w. induction l as [|c l IH]; intros w; [done|].
  cbn [foldl]. by rewrite IH, crawl_city_other_files.
Qed.

End run_facts.

(** X1. [get_weather] returns the fields of the answer exactly when the
    request is answered with a status outside 400..599 and a JSON object in
    which "main" is an object with "temp" and "humidity", "weather" a list
    whose first entry is an object with "main", and "wind" an object with
    "speed".  The four values are handed on as they are, whatever their
    type; in every other case the result is the "N/A" dict. *)
Theorem get_weather_reads_fields (key : string) (lat lon : Q)
    (w : Collector.world) :
  let r := Collector.reply_of w (Collector.weather_url key lat lon) in
  (∀ d : Collector.weather_dict,
     Collector.weather_try (Collector.to_response r) = Ok d
     <-> ∃ (st : Z) (m mm wm wi : gmap string Collector.json)
           (others : list Collector.json),
           r = Collector.Reply st (Some (Collector.JObj m))
           ∧ ¬ (400 ≤ st < 600)%Z
           ∧ m !! "main"%string = Some (Collector.JObj mm)
           ∧ mm !! "temp"%string = Some (Collector.temp d)
           ∧ mm !! "humidity"%string = Some (Collector.humidity d)
           ∧ m !! "weather"%string
             = Some (Collector.JArr (Collector.JObj wm :: others))
           ∧ wm !! "main"%string = Some (Collector.weather d)
           ∧ m !! "wind"%string = Some (Collector.JObj wi)
           ∧ wi !! "speed"%string = Some (Collector.wind_speed d))
  ∧ (Collector.get_weather key lat lon w).1
    = match Collector.weather_try (Collector.to_response r) with
      | Ok d => d
      | Raise _ => Collector.weather_sentinel
      end.
Proof.
  intros r. split; [intros d; apply weather_try_succeeds_iff|].
  apply get_weather_value.
Qed.

(** X2. [get_air_quality] returns the fields of the answer exactly when the
    request is answered with a status outside 400..599 and a JSON object
    whose "list" is a list with a first entry that is an object, with "main"
    an object holding "aqi" and "components" an object holding the seven
    pollutants.  Later entries of "list" are ignored; in every other case
    the result is the "N/A" dict. *)
Theorem get_air_quality_reads_fields (key : string) (lat lon : Q)
    (w : Collector.world) :
  let r := Collector.reply_of w (Collector.air_url key lat lon) in
  (∀ d : Collector.air_dict,
     Collector.air_try (Collector.to_response r) = Ok d
     <-> ∃ (st : Z) (m entry mm cm : gmap string Collector.json)
           (others : list Collector.json),
           r = Collector.Reply st (Some (Collector.JObj m))
           ∧ ¬ (400 ≤ st < 600)%Z
           ∧ m !! "list"%string
             = Some (Collector.JArr (Collector.JObj entry :: others))
           ∧ entry !! "main"%string = Some (Collector.JObj mm)
           ∧ mm !! "aqi"%string = Some (Collector.aqi d)
           ∧ entry !! "components"%string = Some (Collector.JObj cm)
           ∧ cm !! "co"%string = Some (Collector.co d)
           ∧ cm !! "no"%string = Some (Collector.no d)
           ∧ cm !! "no2"%string = Some (Collector.no2 d)
           ∧ cm !! "o3"%string = Some (Collector.o3 d)
           ∧ cm !! "so2"%string = Some (Collector.so2 d)
           ∧ cm !! "pm2_5"%string = Some (Collector.pm2_5 d)
           ∧ cm !! "pm10"%string = Some (Collector.pm10 d))
  ∧ (Collector.get_air_quality key lat lon w).1
    = match Collector.air_try (Collector.to_response r) with
      | Ok d => d
      | Raise _ => Collector.air_sentinel
      end.
Proof.
  intros r. split; [intros d; apply air_try_succeeds_iff|].
  apply get_air_quality_value.
Qed.


(** X4. A run writes the output file and no other: every other path holds
    after the run what it held before.  What the output file holds after the
    run does not depend on what any file held before it: the file is
    rewritten, never appended to. *)
Theorem crawl_and_save_touches_one_file (key : string) (w : Collector.world) :
  (∀ path, path ≠ Collector.CSV_FILE ->
     Collector.files (Collector.crawl_and_save key w) !! path
     = Collector.files w !! path)
  ∧ (∀ fs,
       Collector.files
         (Collector.crawl_and_save key
            {| Collector.clock := Collector.clock w;
               Collector.upstream := Collector.upstream w;
               Collector.files := fs |}) !! Collector.CSV_FILE
       = Collector.files (Collector.crawl_and_save key w) !! Collector.CSV_FILE).
Proof.
  split.
  - intros path Hp. unfold Collector.crawl_and_save.
    rewrite crawl_cities_other_files by done.
    unfold Collector.writerow, Collector.open_w; cbn [Collector.files].
    by rewrite !lookup_insert_ne by done.
  - intros fs. unfold Collector.crawl_and_save. cbn [Collector.clock].
    apply crawl_cities_same; [done..|].
    unfold Collector.writerow, Collector.open_w; cbn [Collector.files].
    by rewrite !lookup_insert_eq.
Qed.

Section rows_facts.
Import Collector.
Variable API_KEY : string.


End rows_facts.


(** ** Reporter: the merge of any two series *)
Section merge_more.
Import pd Reporter.

Lemma rows_at_fmap {A B} (f : A -> B) (key : B -> Z * Z) k (l : list A) :
  rows_at key k (f <$> l) = rows_at (key ∘ f) k l.
Proof.
  unfold rows_at. induction l as [|a l IH]; [done|].
  rewrite fmap_cons, !filter_cons. simpl. case_decide; simpl; by rewrite IH.
Qed.

Lemma rows_at_app {A} (key : A -> Z * Z) k (l1 l2 : list A) :
  rows_at key k (l1 ++ l2) = (rows_at key k l1 + rows_at key k l2)%nat.
Proof. unfold rows_at. by rewrite filter_app, length_app. Qed.

Lemma rows_at_cons {A} (key : A -> Z * Z) k (a : A) (l : list A) :
  rows_at key k (a :: l)
  = ((if decide (key a = k) then 1 else 0) + rows_at key k l)%nat.
Proof. unfold rows_at. rewrite filter_cons. by case_decide. Qed.

Lemma rows_at_Permutation {A} (key : A -> Z * Z) k (l1 l2 : list A) :
  l1 ≡ₚ l2 -> rows_at key k l1 = rows_at key k l2.
Proof. unfold rows_at. by intros ->. Qed.

Lemma rows_at_0 {A} (key : A -> Z * Z) k (l : list A) :
  rows_at key k l = 0%nat <-> k ∉ (key <$> l).
Proof.
  unfold rows_at. induction l as [|a l IH].
  { split; [intros _; apply not_elem_of_nil | done]. }
  rewrite filter_cons, fmap_cons, not_elem_of_cons.
  case_decide as Hk; simpl.
  - split; [done | by intros [Hne _]].
  - rewrite IH. split; [intros ?; split; [congruence | done] | by intros [_ ?]].
Qed.

Lemma rows_at_all {A} (key : A -> Z * Z) k (l : list A) :
  Forall (λ r, key r = k) l -> rows_at key k l = length l.
Proof.
  unfold rows_at. induction 1 as [|a l Ha _ IH]; [done|].
  by rewrite filter_cons_True by done; simpl; rewrite IH.
Qed.

Lemma rows_at_none {A} (key : A -> Z * Z) k (l : list A) :
  Forall (λ r, key r ≠ k) l -> rows_at key k l = 0%nat.
Proof.
  unfold rows_at. induction 1 as [|a l Ha _ IH]; [done|].
  by rewrite filter_cons_False by done.
Qed.

(** The rows a weather row is joined into. *)
Lemma matches_rows_at (df_w : list wrow) (df_a : list arow) k :
  rows_at j_key k
    (w ← df_w;
     match filter (λ a, a_key a = w_key w) df_a with
     | [] => [ {| j_city_id := w_city_id w; j_timestamp := w_timestamp w;
                  j_wx := w_vals w; j_air := no_air |} ]
     | ms => (λ a, {| j_city_id := w_city_id w; j_timestamp := w_timestamp w;
                      j_wx := w_vals w; j_air := a_vals a |}) <$> ms
     end)
  = (rows_at w_key k df_w * Nat.max 1 (rows_at a_key k df_a))%nat.
Proof.
  induction df_w as [|w l IH]; [done|].
  rewrite bind_cons, rows_at_app, IH, (rows_at_cons w_key). clear IH.
  case_decide as Hk.
  - subst k.
    assert (rows_at a_key (w_key w) df_a
            = length (filter (λ a, a_key a = w_key w) df_a)) as -> by done.
    destruct (filter _ df_a) as [|a ms].
    + rewrite rows_at_all by (by repeat constructor). simpl. lia.
    + rewrite rows_at_all by (apply Forall_fmap, Forall_forall; by intros).
      rewrite length_fmap. cbn [length]. rewrite Nat.max_r by lia. lia.
  - rewrite rows_at_none; [lia|].
    destruct (filter _ df_a) as [|a ms].
    + by repeat constructor.
    + apply Forall_fmap, Forall_forall. by intros.
Qed.

Lemma unmatched_rows_at (df_w : list wrow) (df_a : list arow) k :
  rows_at j_key k
    ((λ a, {| j_city_id := a_city_id a; j_timestamp := a_timestamp a;
              j_wx := no_weather; j_air := a_vals a |})
       <$> filter (λ a, a_key a ∉ (w_key <$> df_w)) df_a)
  = if decide (k ∈ (w_key <$> df_w)) then 0%nat else rows_at a_key k df_a.
Proof.
  rewrite rows_at_fmap. unfold rows_at.
  induction df_a as [|a l IH]; [by case_decide|].
  rewrite (filter_cons (λ a, a_key a ∉ _)), (filter_cons (λ r, a_key r = k) a).
  repeat case_decide; simplify_eq; rewrite ?filter_cons; simpl;
    repeat case_decide; simplify_eq/=; try done; by rewrite ?IH.
Qed.

End merge_more.

(** X5. For any two series, also with several rows per (city, hour): a key
    that only one series has keeps as many rows as that series has for it,
    and a key both have gets one row for each pair of a weather row and an
    air row, so [cw * ca] rows. *)
Theorem merge_hourly_multiplicity (df_w : list Reporter.wrow)
    (df_a : list Reporter.arow) (k : Z * Z) :
  rows_at Reporter.m_key k (Reporter.merge_hourly df_w df_a)
  = match rows_at Reporter.w_key k df_w, rows_at Reporter.a_key k df_a with
    | O, ca => ca
    | cw, O => cw
    | cw, ca => (cw * ca)%nat
    end.
Proof.
  unfold Reporter.merge_hourly. rewrite rows_at_fmap.
  change (Reporter.m_key ∘ _) with Reporter.j_key.
  unfold Reporter.sort_values_key.
  rewrite (rows_at_Permutation _ _ _ _ (merge_sort_Permutation _ _)).
  unfold Reporter.pd_merge_outer.
  rewrite rows_at_app, matches_rows_at, unmatched_rows_at.
  case_decide as Hin.
  - destruct (rows_at Reporter.w_key k df_w) as [|cw] eqn:Ew.
    { apply rows_at_0 in Ew. done. }
    destruct (rows_at Reporter.a_key k df_a); simpl; lia.
  - apply rows_at_0 in Hin. rewrite Hin. simpl. done.
Qed.

Section join_facts.
Import pd Reporter.

Lemma merge_hourly_intro (j : jrow) (df_w : list wrow) (df_a : list arow) :
  j ∈ pd_merge_outer df_w df_a ->
  ∃ m, m ∈ merge_hourly df_w df_a ∧ m_key m = j_key j
       ∧ wx m = j_wx j ∧ air m = j_air j.
Proof.
  intros Hj.
  exists {| city_id := j_city_id j; timestamp := j_timestamp j; wx := j_wx j;
            air := j_air j; city_name := CITY_MAP !! j_city_id j |}.
  split; [|done]. unfold merge_hourly.
  apply (list_elem_of_fmap_2 (λ j, {| city_id := j_city_id j;
           timestamp := j_timestamp j; wx := j_wx j; air := j_air j;
           city_name := CITY_MAP !! j_city_id j |})).
  unfold sort_values_key. by rewrite merge_sort_Permutation.
Qed.

(** A weather row is joined with every air row of its key, and kept when
    there is none. *)
Lemma pd_merge_outer_left (w : wrow) (df_w : list wrow) (df_a : list arow) :
  w ∈ df_w ->
  (∀ a, a ∈ df_a -> a_key a = w_key w ->
        {| j_city_id := w_city_id w; j_timestamp := w_timestamp w;
           j_wx := w_vals w; j_air := a_vals a |} ∈ pd_merge_outer df_w df_a)
  ∧ ∃ j, j ∈ pd_merge_outer df_w df_a ∧ j_key j = w_key w ∧ j_wx j = w_vals w.
Proof.
  intros Hw. unfold pd_merge_outer.
  destruct (filter (λ a, a_key a = w_key w) df_a) as [|a0 ms] eqn:E.
  - split.
    + intros a Ha Hk.
      assert (a ∈ filter (λ a, a_key a = w_key w) df_a) as Hf
        by by apply list_elem_of_filter.
      rewrite E in Hf. by apply elem_of_nil in Hf.
    + exists {| j_city_id := w_city_id w; j_timestamp := w_timestamp w;
                j_wx := w_vals w; j_air := no_air |}.
      split; [|done]. apply elem_of_app. left.
      apply list_elem_of_bind. exists w. split; [|done]. rewrite E. left.
  - split.
    + intros a Ha Hk. apply elem_of_app. left.
      apply list_elem_of_bind. exists w. split; [|done]. rewrite E.
      apply (list_elem_of_fmap_2 (λ a, {| j_city_id := w_city_id w;
               j_timestamp := w_timestamp w; j_wx := w_vals w;
               j_air := a_vals a |})).
      rewrite <- E. by apply list_elem_of_filter.
    + exists {| j_city_id := w_city_id w; j_timestamp := w_timestamp w;
                j_wx := w_vals w; j_air := a_vals a0 |}.
      split; [|done]. apply elem_of_app. left.
      apply list_elem_of_bind. exists w. split; [|done]. rewrite E.
      apply (list_elem_of_fmap_2 (λ a, {| j_city_id := w_city_id w;
               j_timestamp := w_timestamp w; j_wx := w_vals w;
               j_air := a_vals a |}) _ a0). left.
Qed.

Lemma pd_merge_outer_right (a : arow) (df_w : list wrow) (df_a : list arow) :
  a ∈ df_a ->
  ∃ j, j ∈ pd_merge_outer df_w df_a ∧ j_key j = a_key a ∧ j_air j = a_vals a.
Proof.
  intros Ha. destruct (decide (a_key a ∈ w_key <$> df_w)) as [Hin|Hn].
  - apply list_elem_of_fmap in Hin as (w & Hk & Hw).
    destruct (pd_merge_outer_left w df_w df_a Hw) as [Hpair _].
    eexists. split; [by apply (Hpair a)|]. split; [|done].
    unfold j_key; simpl. by rewrite Hk.
  - exists {| j_city_id := a_city_id a; j_timestamp := a_timestamp a;
              j_wx := no_weather; j_air := a_vals a |}.
    split; [|done]. unfold pd_merge_outer. apply elem_of_app. right.
    apply (list_elem_of_fmap_2 (λ a, {| j_city_id := a_city_id a;
             j_timestamp := a_timestamp a; j_wx := no_weather;
             j_air := a_vals a |})).
    by apply list_elem_of_filter.
Qed.

End join_facts.

(** X6. For any two series the merged table is in ascending order of
    (city_id, timestamp); every weather row and every air row is found in it
    under its key with its measurements, and every pair of rows with the same
    key is found together in one merged row; and a merged row carries the
    measurements of a row of each series with its key, or missing values
    where the series has no row for the key. *)
Theorem merge_hourly_keeps_every_reading (df_w : list Reporter.wrow)
    (df_a : list Reporter.arow) :
  let df := Reporter.merge_hourly df_w df_a in
  StronglySorted Reporter.key_le (Reporter.m_key <$> df)
  ∧ (∀ w, w ∈ df_w ->
       ∃ m, m ∈ df ∧ Reporter.m_key m = Reporter.w_key w
            ∧ Reporter.wx m = Reporter.w_vals w)
  ∧ (∀ a, a ∈ df_a ->
       ∃ m, m ∈ df ∧ Reporter.m_key m = Reporter.a_key a
            ∧ Reporter.air m = Reporter.a_vals a)
  ∧ (∀ w a, w ∈ df_w -> a ∈ df_a -> Reporter.w_key w = Reporter.a_key a ->
       ∃ m, m ∈ df ∧ Reporter.m_key m = Reporter.w_key w
            ∧ Reporter.wx m = Reporter.w_vals w
            ∧ Reporter.air m = Reporter.a_vals a)
  ∧ (∀ m, m ∈ df ->
       ((∃ w, w ∈ df_w ∧ Reporter.w_key w = Reporter.m_key m
              ∧ Reporter.wx m = Reporter.w_vals w)
        ∨ ((Reporter.m_key m ∉ (Reporter.w_key <$> df_w))
           ∧ Reporter.wx m = Reporter.no_weather))
       ∧ ((∃ a, a ∈ df_a ∧ Reporter.a_key a = Reporter.m_key m
               ∧ Reporter.air m = Reporter.a_vals a)
          ∨ ((Reporter.m_key m ∉ (Reporter.a_key <$> df_a))
             ∧ Reporter.air m = Reporter.no_air))).
Proof.
  intros df. split; [|split; [|split; [|split]]].
  - unfold df. rewrite merge_hourly_keys.
    apply StronglySorted_fmap with (R1 := Reporter.j_le); [done|].
    apply StronglySorted_merge_sort; apply _.
  - intros w Hw.
    destruct (pd_merge_outer_left w df_w df_a Hw) as [_ (j & Hj & Hk & Hv)].
    destruct (merge_hourly_intro j df_w df_a Hj) as (m & Hm & Hmk & Hwx & _).
    exists m. split; [done|]. split; congruence.
  - intros a Ha.
    destruct (pd_merge_outer_right a df_w df_a Ha) as (j & Hj & Hk & Hv).
    destruct (merge_hourly_intro j df_w df_a Hj) as (m & Hm & Hmk & _ & Hair).
    exists m. split; [done|]. split; congruence.
  - intros w a Hw Ha Hk.
    destruct (pd_merge_outer_left w df_w df_a Hw) as [Hpair _].
    destruct (merge_hourly_intro _ df_w df_a (Hpair a Ha (eq_sym Hk)))
      as (m & Hm & Hmk & Hwx & Hair).
    exists m. done.
  - intros m (j & Hj & Hk & Hwx & Hair & _)%merge_hourly_elem.
    rewrite Hk, Hwx, Hair.
    apply pd_merge_outer_elem in Hj
      as [(w & Hin & Hjk & Hjw & Hcase)|(a & Hin & Hn & Hjk & Hjw & Hja)].
    + split; [left; by exists w|].
      destruct Hcase as [(a & Ha & Hak & Hja)|[Hno Hja]].
      * left. exists a. split; [done|]. split; congruence.
      * right. split; [|done].
        intros (a & Hak & Ha)%list_elem_of_fmap. apply (Hno a Ha). congruence.
    + split; [right; split; [by rewrite Hjk | done]|].
      left. by exists a.
Qed.

(** ** Reporter: the shape of the statistics table *)
Section table_facts.
Import pd Reporter.

Lemma ascii_compare_Lt_trans (a b c : ascii) :
  Ascii.compare a b = Lt -> Ascii.compare b c = Lt -> Ascii.compare a c = Lt.
Proof. unfold Ascii.compare. rewrite !N.compare_lt_iff. lia. Qed.

Lemma string_compare_Lt_trans (s1 s2 s3 : string) :
  String.compare s1 s2 = Lt -> String.compare s2 s3 = Lt ->
  String.compare s1 s3 = Lt.
Proof.
  revert s2 s3. induction s1 as [|a s1 IH]; intros [|b s2] [|c s3]; simpl;
    try done.
  destruct (Ascii.compare a b) eqn:Eab; [|intros _|done].
  - apply Ascii.compare_eq_iff in Eab as ->.
    destruct (Ascii.compare b c); [apply IH|done|done].
  - destruct (Ascii.compare b c) eqn:Ebc; [|intros _|done].
    + apply Ascii.compare_eq_iff in Ebc as <-. by rewrite Eab.
    + by rewrite (ascii_compare_Lt_trans a b c).
Qed.

#[global] Instance stat_le_total : Total stat_le.
Proof.
  intros r1 r2. unfold stat_le.
  rewrite (String.compare_antisym (st_variable r2)).
  destruct (String.compare _ _); simpl; [lia | by left | by right].
Qed.

#[global] Instance stat_le_trans : Transitive stat_le.
Proof.
  intros r1 r2 r3. unfold stat_le.
  destruct (String.compare (st_variable r1) (st_variable r2)) eqn:E12; [| |done].
  - apply String.compare_eq_iff in E12 as ->.
    destruct (String.compare _ _); [lia|done|done].
  - intros _.
    destruct (String.compare (st_variable r2) (st_variable r3)) eqn:E23; [| |done].
    + apply String.compare_eq_iff in E23 as <-. by rewrite E12.
    + by rewrite (string_compare_Lt_trans _ _ _ E12 E23).
Qed.

Lemma numeric_cols_NoDup (df : list mrow) : NoDup (numeric_cols df).
Proof. apply (bool_decide_unpack _). by vm_compute. Qed.

Lemma groupby_city_id_NoDup (df : list mrow) :
  NoDup ((groupby_city_id df).*1).
Proof.
  unfold groupby_city_id.
  assert (∀ l : list Z,
            ((λ cid, (cid, filter (λ r, city_id r = cid) df)) <$> l).*1 = l)
    as -> by (induction l as [|? ? IH]; [done | by rewrite !fmap_cons, IH]).
  rewrite merge_sort_Permutation. apply NoDup_remove_dups.
Qed.

Lemma group_stats_key (df : list mrow) (g : Z * list mrow) (r : stat_row) :
  r ∈ group_stats df g -> st_city_id r = g.1 ∧ st_variable r ∈ numeric_cols df.
Proof.
  unfold group_stats. intros (col & Hr & Hcol)%list_elem_of_bind.
  case_bool_decide; [by apply elem_of_nil in Hr|].
  by apply list_elem_of_singleton in Hr as ->.
Qed.

Lemma group_stats_NoDup (df : list mrow) (g : Z * list mrow) :
  NoDup (stat_key <$> group_stats df g).
Proof.
  unfold group_stats. generalize (numeric_cols_NoDup df).
  induction 1 as [|col l Hcol Hl IH]; [constructor|].
  rewrite bind_cons, fmap_app. apply NoDup_app. split; [|split; [|done]].
  - case_bool_decide; repeat constructor. by intros ?%elem_of_nil.
  - intros k Hk (r & -> & (c & Hr & Hc)%list_elem_of_bind)%list_elem_of_fmap.
    destruct (bool_decide (notna_sum (numeric_column col g.2) = 0%nat));
      simpl in Hk; [by apply elem_of_nil in Hk|].
    apply list_elem_of_singleton in Hk.
    destruct (bool_decide _); [by apply elem_of_nil in Hr|].
    apply list_elem_of_singleton in Hr as ->.
    unfold stat_key in Hk; simpl in Hk. by simplify_eq.
Qed.

Lemma stats_rows_NoDup (df : list mrow) : NoDup (stat_key <$> stats_rows df).
Proof.
  rewrite stats_rows_bind.
  assert (∀ l : list (Z * list mrow), NoDup l.*1 ->
            NoDup (stat_key <$> (l ≫= group_stats df))) as Hgen.
  { induction l as [|g l IH]; [constructor|].
    rewrite fmap_cons, NoDup_cons. intros [Hg Hl].
    rewrite bind_cons, fmap_app. apply NoDup_app.
    split; [apply group_stats_NoDup|]. split; [|by apply IH].
    intros k (r & -> & [Hr _]%group_stats_key)%list_elem_of_fmap
             (r' & Hk & (g' & [Hr' _]%group_stats_key & Hg')%list_elem_of_bind)%list_elem_of_fmap.
    apply Hg. unfold stat_key in Hk. simplify_eq. rewrite <- Hr, H0, Hr'.
    by apply list_elem_of_fmap_2. }
  apply Hgen, groupby_city_id_NoDup.
Qed.

End table_facts.

(** X7. The statistics table is in ascending order of (variable, city_id),
    variables compared as strings, and holds at most one row for a city and
    a variable: two rows that the order does not tell apart are the same
    row. *)
Theorem compute_stats_table_order (df : list Reporter.mrow) :
  StronglySorted Reporter.stat_le (Reporter.emitted df)
  ∧ NoDup (stat_key <$> Reporter.emitted df)
  ∧ (∀ r1 r2, r1 ∈ Reporter.emitted df -> r2 ∈ Reporter.emitted df ->
       Reporter.stat_le r1 r2 -> Reporter.stat_le r2 r1 -> r1 = r2).
Proof.
  assert (NoDup (stat_key <$> Reporter.emitted df)) as Hnd.
  { unfold Reporter.emitted, Reporter.compute_stats.
    pose proof (stats_rows_NoDup df) as H.
    destruct (Reporter.stats_rows df) as [|r rows]; [constructor|].
    by rewrite merge_sort_Permutation. }
  split; [|split; [done|]].
  - unfold Reporter.emitted, Reporter.compute_stats.
    destruct (Reporter.stats_rows df) as [|r rows]; [constructor|].
    apply StronglySorted_merge_sort; apply _.
  - intros r1 r2 H1 H2 H12 H21.
    apply (NoDup_fmap_eq stat_key (Reporter.emitted df)); [done..|].
    unfold Reporter.stat_le in *. unfold stat_key.
    rewrite (String.compare_antisym (Reporter.st_variable r2)) in H21.
    destruct (String.compare _ _) eqn:E; simpl in *; try done.
    apply String.compare_eq_iff in E. f_equal; [done|lia].
Qed.

(** ** Reporter: spread, mode, median and extremes *)
Section spread_facts.
Import pd Reporter.






(** The mode is missing exactly when every entry is. *)
Lemma mode_nil (x : series) : mode x = [] <-> dropna x = [].
Proof.
  unfold mode. set (v := dropna x).
  set (top := max_list ((λ a, occurrences a v) <$> v)).
  split; [|by intros ->].
  intros Hm.
  assert (v = [] ∨ v ≠ []) as [|Hv] by (destruct v; [by left | by right]);
    [done|exfalso].
  assert (top ∈ (λ a, occurrences a v) <$> v) as (a & Htop & Ha)%list_elem_of_fmap.
  { apply max_list_elem_of. by destruct v. }
  destruct (unique_repr v a Ha) as (a' & Hin & Heq).
  assert (a' ∈ merge_sort Qle (filter (λ a, occurrences a v = top) (unique v)))
    as Hal.
  { rewrite merge_sort_Permutation. apply list_elem_of_filter. split; [|done].
    by rewrite (occurrences_proper a' a). }
  rewrite Hm in Hal. by apply elem_of_nil in Hal.
Qed.

End spread_facts.

(** X12. [safe_mode] gives NaN exactly for a series without a number, and
    a number otherwise; so the mode of a row of the statistics table is
    always a number. *)
Theorem safe_mode_missing (x : pd.series) :
  (Reporter.safe_mode x = pd.nan <-> pd.dropna x = [])
  ∧ (∀ v, Reporter.safe_mode x ≠ pd.root v)
  ∧ (∀ r df, r ∈ Reporter.emitted df -> ∃ m, Reporter.st_mode r = pd.num m).
Proof.
  split; [|split].
  - rewrite <- mode_nil. unfold Reporter.safe_mode. by destruct (pd.mode x).
  - intros v. unfold Reporter.safe_mode. by destruct (pd.mode x).
  - intros r df (cid & col & Hcol & Hobs & ->)%emitted_elem%stats_rows_elem.
    cbn [Reporter.stat_of Reporter.st_mode]. unfold Reporter.observations in Hobs.
    rewrite <- mode_nil in Hobs. unfold Reporter.safe_mode.
    destruct (pd.mode _); [done|]. by eexists.
Qed.


Section order_facts.
Import pd Reporter.

Lemma foldl_Qmin_elem (v : list Q) (a : Q) : foldl Qmin a v ∈ a :: v.
Proof.
  revert a. induction v as [|b v IH]; intros a; simpl; [left|].
  specialize (IH (Qmin a b)). apply elem_of_cons in IH as [->|IH].
  - unfold Qmin, GenericMinMax.gmin. destruct (a ?= b)%Q; [left|left|right; left].
  - right. by right.
Qed.

Lemma foldl_Qmax_elem (v : list Q) (a : Q) : foldl Qmax a v ∈ a :: v.
Proof.
  revert a. induction v as [|b v IH]; intros a; simpl; [left|].
  specialize (IH (Qmax a b)). apply elem_of_cons in IH as [->|IH].
  - unfold Qmax, GenericMinMax.gmax. destruct (a ?= b)%Q; [left|right; left|left].
  - right. by right.
Qed.

Lemma sorted_lookup_le (s : list Q) (i j : nat) (x y : Q) :
  StronglySorted Qle s -> s !! i = Some x -> s !! j = Some y -> (i ≤ j)%nat ->
  (x <= y)%Q.
Proof.
  intros Hs. revert i j. induction Hs as [|x0 l Hl IH Hall]; intros i j; [done|].
  destruct i as [|i], j as [|j]; simpl; intros Hi Hj Hij; simplify_eq.
  - apply Qle_refl.
  - rewrite Forall_forall in Hall. apply Hall. by eapply list_elem_of_lookup_2.
  - lia.
  - apply (IH i j); [done..|lia].
Qed.

Lemma filter_all_length {A} (P : A -> Prop) `{∀ x, Decision (P x)} (l : list A) :
  Forall P l -> length (filter P l) = length l.
Proof.
  induction 1 as [|a l Ha _ IH]; [done|].
  by rewrite filter_cons_True by done; simpl; rewrite IH.
Qed.

(** In a sorted list, the values up to position [k] are at most any bound
    of the value at [k], and those from [k] on at least any number it
    bounds. *)
Lemma sorted_below (s : list Q) (k : nat) (a c : Q) :
  StronglySorted Qle s -> s !! k = Some a -> (a <= c)%Q ->
  (k + 1 ≤ length (filter (λ x, x <= c)%Q s))%nat.
Proof.
  intros Hs Hk Hac. rewrite <- (take_drop (S k) s), filter_app, length_app.
  rewrite filter_all_length.
  - rewrite length_take. apply lookup_lt_Some in Hk. lia.
  - apply Forall_lookup. intros i x Hi.
    apply lookup_take_Some in Hi as [Hi Hlt].
    eapply Qle_trans; [|exact Hac]. apply (sorted_lookup_le s i k); [done..|lia].
Qed.

Lemma sorted_above (s : list Q) (k : nat) (b c : Q) :
  StronglySorted Qle s -> s !! k = Some b -> (c <= b)%Q ->
  (length s - k ≤ length (filter (λ x, c <= x)%Q s))%nat.
Proof.
  intros Hs Hk Hcb. rewrite <- (take_drop k s) at 2.
  rewrite filter_app, length_app, (filter_all_length _ (drop k s)).
  - rewrite length_drop. lia.
  - apply Forall_lookup. intros i x Hi. rewrite lookup_drop in Hi.
    eapply Qle_trans; [exact Hcb|]. apply (sorted_lookup_le s k (k + i)); [done..|lia].
Qed.

(** At least half of the numbers are at most the median, and at least half
    are at least the median. *)
Lemma median_splits (x : series) :
  dropna x ≠ [] ->
  ∃ md, median x = num md
        ∧ (length (dropna x)
           ≤ 2 * length (filter (λ a, a <= md)%Q (dropna x)))%nat
        ∧ (length (dropna x)
           ≤ 2 * length (filter (λ a, md <= a)%Q (dropna x)))%nat.
Proof.
  intros Hv. unfold median.
  set (s := merge_sort Qle (dropna x)).
  assert (s ≡ₚ dropna x) as Hp by apply merge_sort_Permutation.
  assert (StronglySorted Qle s) as Hs by (apply StronglySorted_merge_sort; apply _).
  assert (length s ≠ 0%nat) as Hn.
  { rewrite Hp. by destruct (dropna x). }
  assert (length (dropna x) = length s) as Hlen by (by rewrite Hp).
  assert (∀ c, length (filter (λ a, a <= c)%Q (dropna x))
               = length (filter (λ a, a <= c)%Q s)) as Hlo
    by (intros c; by rewrite Hp).
  assert (∀ c, length (filter (λ a, c <= a)%Q (dropna x))
               = length (filter (λ a, c <= a)%Q s)) as Hhi
    by (intros c; by rewrite Hp).
  rewrite Hlen. setoid_rewrite Hlo. setoid_rewrite Hhi.
  rewrite bool_decide_eq_false_2 by done.
  destruct (Nat.even (length s)) eqn:Heven.
  - apply Nat.even_spec in Heven as [h Hh].
    assert (length s / 2 = h)%nat as Hdiv.
    { rewrite Hh, Nat.mul_comm. by apply Nat.div_mul. }
    rewrite Hdiv.
    destruct (lookup_lt_is_Some_2 s (h - 1)) as [a Ha]; [lia|].
    destruct (lookup_lt_is_Some_2 s h) as [b Hb]; [lia|].
    rewrite Ha, Hb. eexists; split; [done|].
    assert (a <= b)%Q as Hab by (apply (sorted_lookup_le s (h - 1) h); [done..|lia]).
    assert (a <= (a + b) / 2)%Q as H1 by (apply Qle_shift_div_l; lra).
    assert ((a + b) / 2 <= b)%Q as H2 by (apply Qle_shift_div_r; lra).
    pose proof (sorted_below s (h - 1) a _ Hs Ha H1).
    pose proof (sorted_above s h b _ Hs Hb H2). lia.
  - assert (Nat.odd (length s) = true) as [h Hh]%Nat.odd_spec.
    { by rewrite <- Nat.negb_even, Heven. }
    assert (length s / 2 = h)%nat as Hdiv.
    { rewrite Hh. rewrite Nat.add_comm, Nat.mul_comm, Nat.div_add by done.
      done. }
    rewrite Hdiv.
    destruct (lookup_lt_is_Some_2 s h) as [b Hb]; [lia|].
    rewrite Hb. eexists; split; [done|].
    pose proof (sorted_below s h b b Hs Hb (Qle_refl b)).
    pose proof (sorted_above s h b b Hs Hb (Qle_refl b)). lia.
Qed.

End order_facts.

(** X9. The median of a row of the statistics table splits its
    observations: at least half of them are at most the median and at least
    half of them are at least the median. *)
Theorem median_splits_observations (df : list Reporter.mrow)
    (r : Reporter.stat_row) :
  r ∈ Reporter.emitted df ->
  ∃ md : Q,
    Reporter.st_median r = pd.num md
    ∧ (length (Reporter.observations df (Reporter.st_city_id r)
                                     (Reporter.st_variable r))
       ≤ 2 * length (filter (λ a, a <= md)%Q
                       (Reporter.observations df (Reporter.st_city_id r)
                                              (Reporter.st_variable r))))%nat
    ∧ (length (Reporter.observations df (Reporter.st_city_id r)
                                     (Reporter.st_variable r))
       ≤ 2 * length (filter (λ a, md <= a)%Q
                       (Reporter.observations df (Reporter.st_city_id r)
                                              (Reporter.st_variable r))))%nat.
Proof.
  intros (cid & col & Hcol & Hobs & ->)%emitted_elem%stats_rows_elem.
  cbn [Reporter.stat_of Reporter.st_median Reporter.st_city_id
       Reporter.st_variable].
  unfold Reporter.observations in *.
  set (x := Reporter.numeric_column col _) in *.
  destruct (median_splits x Hobs) as (md & -> & H1 & H2).
  exists (Qred md). split; [done|].
  rewrite (list_filter_iff (λ a, a <= Qred md)%Q (λ a, a <= md)%Q)
    by (intros a; by rewrite Qred_correct).
  rewrite (list_filter_iff (λ a, Qred md <= a)%Q (λ a, md <= a)%Q)
    by (intros a; by rewrite Qred_correct).
  done.
Qed.

(** X10. The min and the max of a row of the statistics table are observed
    values: each is one of the observations, and every observation lies
    between them. *)
Theorem extremes_are_observations (df : list Reporter.mrow)
    (r : Reporter.stat_row) :
  r ∈ Reporter.emitted df ->
  ∃ lo hi : Q,
    lo ∈ Reporter.observations df (Reporter.st_city_id r) (Reporter.st_variable r)
    ∧ hi ∈ Reporter.observations df (Reporter.st_city_id r) (Reporter.st_variable r)
    ∧ Reporter.st_min r = pd.num (Qred lo)
    ∧ Reporter.st_max r = pd.num (Qred hi)
    ∧ ∀ a, a ∈ Reporter.observations df (Reporter.st_city_id r)
                                      (Reporter.st_variable r) ->
           (lo <= a)%Q ∧ (a <= hi)%Q.
Proof.
  intros (cid & col & Hcol & Hobs & ->)%emitted_elem%stats_rows_elem.
  cbn [Reporter.stat_of Reporter.st_min Reporter.st_max Reporter.st_city_id
       Reporter.st_variable].
  unfold Reporter.observations in *.
  set (x := Reporter.numeric_column col _) in *.
  unfold pd.min, pd.max. destruct (pd.dropna x) as [|a v]; [done|].
  exists (foldl Qmin a v), (foldl Qmax a v).
  split; [apply foldl_Qmin_elem|]. split; [apply foldl_Qmax_elem|].
  split; [done|]. split; [done|].
  pose proof (min_max_bounds a v) as Hall. rewrite Forall_forall in Hall.
  exact Hall.
Qed.

Lemma aqi_stats_emitted :
  aqi_stats ∈ Reporter.emitted (Scenario.aqi_10_20_20_30 1).
Proof. vm_compute. left. Qed.


(** X9 on the readings 10, 20, 20, 30 of city 1. *)
Lemma median_splits_observations_aqi :
  aqi_stats ∈ Reporter.emitted (Scenario.aqi_10_20_20_30 1)
  ∧ ∃ md : Q,
      Reporter.st_median aqi_stats = pd.num md
      ∧ (length (Reporter.observations (Scenario.aqi_10_20_20_30 1)
                   (Reporter.st_city_id aqi_stats)
                   (Reporter.st_variable aqi_stats))
         ≤ 2 * length (filter (λ a, a <= md)%Q
                         (Reporter.observations (Scenario.aqi_10_20_20_30 1)
                            (Reporter.st_city_id aqi_stats)
                            (Reporter.st_variable aqi_stats))))%nat
      ∧ (length (Reporter.observations (Scenario.aqi_10_20_20_30 1)
                   (Reporter.st_city_id aqi_stats)
                   (Reporter.st_variable aqi_stats))
         ≤ 2 * length (filter (λ a, md <= a)%Q
                         (Reporter.observations (Scenario.aqi_10_20_20_30 1)
                            (Reporter.st_city_id aqi_stats)
                            (Reporter.st_variable aqi_stats))))%nat.
Proof.
  split; [exact aqi_stats_emitted|].
  exact (median_splits_observations (Scenario.aqi_10_20_20_30 1) aqi_stats
           aqi_stats_emitted).
Defined.

(** X10 on the readings 10, 20, 20, 30 of city 1. *)
Lemma extremes_are_observations_aqi :
  aqi_stats ∈ Reporter.emitted (Scenario.aqi_10_20_20_30 1)
  ∧ ∃ lo hi : Q,
      lo ∈ Reporter.observations (Scenario.aqi_10_20_20_30 1)
             (Reporter.st_city_id aqi_stats) (Reporter.st_variable aqi_stats)
      ∧ hi ∈ Reporter.observations (Scenario.aqi_10_20_20_30 1)
               (Reporter.st_city_id aqi_stats) (Reporter.st_variable aqi_stats)
      ∧ Reporter.st_min aqi_stats = pd.num (Qred lo)
      ∧ Reporter.st_max aqi_stats = pd.num (Qred hi)
      ∧ ∀ a, a ∈ Reporter.observations (Scenario.aqi_10_20_20_30 1)
                   (Reporter.st_city_id aqi_stats)
                   (Reporter.st_variable aqi_stats) ->
             (lo <= a)%Q ∧ (a <= hi)%Q.
Proof.
  split; [exact aqi_stats_emitted|].
  exact (extremes_are_observations (Scenario.aqi_10_20_20_30 1) aqi_stats
           aqi_stats_emitted).
Defined.


(** ** Reporter: what the statistics depend on *)
Section reads_facts.
Import pd Reporter.

Lemma stats_rows_by_city (df : list mrow) :
  stats_rows df
  = merge_sort Z.le (remove_dups (city_id <$> df))
      ≫= λ cid, group_stats df (cid, filter (λ r, city_id r = cid) df).
Proof. rewrite stats_rows_bind. unfold groupby_city_id. by rewrite list_fmap_bind. Qed.

Lemma numeric_column_same (df df' : list mrow) (cols : list string)
    (cid : Z) (col : string) :
  Forall2 (λ r r', city_id r = city_id r'
                   ∧ ∀ col, col ∈ cols ->
                       to_numeric (getcol col r) = to_numeric (getcol col r'))
    df df' ->
  col ∈ cols ->
  numeric_column col (filter (λ r, city_id r = cid) df)
  = numeric_column col (filter (λ r, city_id r = cid) df').
Proof.
  intros Hsame Hcol. unfold numeric_column.
  induction Hsame as [|r r' df df' [Hid Hnum] _ IH]; [done|].
  rewrite !filter_cons, <- Hid. case_decide; [|done].
  rewrite !fmap_cons, IH. f_equal. by apply Hnum.
Qed.

End reads_facts.

(** X11. [compute_stats] reads the city ids and the numbers of the
    measurement columns and nothing else: two tables whose rows agree, one by
    one, on the city id and on what each measurement coerces to give the same
    result.  So text that is no number counts as a missing value, and the hour
    stamps and the city names of the merged rows play no part. *)
Theorem compute_stats_reads_numbers_only (df df' : list Reporter.mrow) :
  Forall2 (λ r r', Reporter.city_id r = Reporter.city_id r'
                   ∧ ∀ col, col ∈ Reporter.numeric_cols df ->
                       pd.to_numeric (Reporter.getcol col r)
                       = pd.to_numeric (Reporter.getcol col r'))
    df df' ->
  Reporter.compute_stats df = Reporter.compute_stats df'.
Proof.
  intros Hsame. unfold Reporter.compute_stats.
  assert (Reporter.stats_rows df = Reporter.stats_rows df') as ->; [|done].
  rewrite !stats_rows_by_city.
  assert (Reporter.city_id <$> df = Reporter.city_id <$> df') as <-.
  { clear -Hsame. induction Hsame as [|r r' l l' [Hid _] _ IH]; [done|].
    by rewrite !fmap_cons, Hid, IH. }
  apply Forall_bind_ext, Forall_forall. intros cid _.
  unfold Reporter.group_stats.
  change (Reporter.numeric_cols df') with (Reporter.numeric_cols df).
  apply Forall_bind_ext, Forall_forall. intros col Hcol. cbn [fst snd].
  by rewrite (numeric_column_same df df' _ cid col Hsame Hcol).
Qed.

(** X11 on two tables that differ in text, hour stamps and city names. *)
Lemma compute_stats_reads_numbers_only_junk :
  Forall2 (λ r r', Reporter.city_id r = Reporter.city_id r'
                   ∧ ∀ col, col ∈ Reporter.numeric_cols junk_and_stamps ->
                       pd.to_numeric (Reporter.getcol col r)
                       = pd.to_numeric (Reporter.getcol col r'))
    junk_and_stamps missing_and_no_stamps
  ∧ Reporter.compute_stats junk_and_stamps
    = Reporter.compute_stats missing_and_no_stamps.
Proof.
  assert (∀ col, col ∈ Reporter.numeric_cols junk_and_stamps ->
            col ∈ [ "temperature"; "humidity"; "wind_speed"; "aqi"; "pm2_5";
                    "pm10"; "co"; "no"; "no2"; "o3"; "so2" ]%string) as Hcols.
  { intros col Hcol. by vm_compute in Hcol. }
  assert (Forall2 (λ r r', Reporter.city_id r = Reporter.city_id r'
                   ∧ ∀ col, col ∈ Reporter.numeric_cols junk_and_stamps ->
                       pd.to_numeric (Reporter.getcol col r)
                       = pd.to_numeric (Reporter.getcol col r'))
            junk_and_stamps missing_and_no_stamps) as Hsame.
  { repeat constructor; intros col Hcol%Hcols;
      repeat (apply elem_of_cons in Hcol as [->|Hcol]; [reflexivity|]);
      by apply elem_of_nil in Hcol. }
  split; [exact Hsame|].
  exact (compute_stats_reads_numbers_only _ _ Hsame).
Defined.

Section row_order_facts.
Import pd Reporter.


















End row_order_facts.



(** ** Reporter: the merge and the statistics together *)
Section compose_facts.
Import pd Reporter.

Lemma observations_omap (df : list mrow) (cid : Z) (col : string) :
  observations df cid col = omap (reading cid col) df.
Proof.
  unfold observations, numeric_column, dropna, reading.
  induction df as [|r df IH]; [done|].
  rewrite filter_cons. cbn [omap list_omap]. case_decide; [|done].
  rewrite !fmap_cons. cbn [omap list_omap]. simpl. rewrite IH.
  by destruct (to_numeric _).
Qed.



Lemma omap_none {A B} (f : A -> option B) (l : list A) :
  (∀ a, a ∈ l -> f a = None) -> omap f l = [].
Proof.
  induction l as [|a l IH]; [done|]. intros H. cbn [omap list_omap].
  rewrite (H a) by left. apply IH. intros b Hb. apply H. by right.
Qed.













End compose_facts.


(** Without the uniqueness the weather statistics change: an hour with two
    air rows counts its temperature twice, and the mean of 10 and 20 comes
    out as 40/3. *)
Example merge_repeats_weather_reading :
  Reporter.st_mean <$> Reporter.emitted
                         (Reporter.merge_hourly weather_two_hours [])
  = [pd.num 15]
  ∧ Reporter.st_mean <$> Reporter.emitted
                           (Reporter.merge_hourly weather_two_hours
                                                  air_twice_in_an_hour)
    = [pd.num (40 # 3)].
Proof. split; by vm_compute. Qed.

(** ** Reporter: reading the city list *)
Section decimal_facts.
Import Reporter.

Lemma pretty_N_char_digit (x : N) :
  (x < 10)%N -> digit (pretty_N_char x) = Some (Z.of_N x).
Proof.
  intros Hx.
  assert (x = 0 ∨ x = 1 ∨ x = 2 ∨ x = 3 ∨ x = 4 ∨ x = 5 ∨ x = 6 ∨ x = 7
          ∨ x = 8 ∨ x = 9)%N as H by lia.
  repeat (destruct H as [->|H]; [reflexivity|]). by subst.
Qed.

Lemma digit_not_underscore (c : ascii) (d : Z) :
  digit c = Some d -> Ascii.eqb c "_" = false.
Proof.
  intros H. destruct (Ascii.eqb_spec c "_") as [->|]; [by vm_compute in H | done].
Qed.

Lemma digit_not_space (c : ascii) (d : Z) :
  digit c = Some d -> py_isspace c = false.
Proof.
  unfold digit, py_isspace. set (n := nat_of_ascii c).
  destruct (48 <=? n)%nat eqn:E1; [|done].
  destruct (n <=? 57)%nat eqn:E2; [|done]. intros _.
  apply Nat.leb_le in E1, E2.
  rewrite (proj2 (Nat.leb_gt n 13)) by lia.
  rewrite (proj2 (Nat.leb_gt n 32)) by lia.
  by rewrite !andb_false_r.
Qed.

(** Reading the digits [str] wrote gives the number back. *)
Lemma digits_pretty_N_go (x : N) :
  (0 < x)%N ->
  ∀ s b, digits 0 b (pretty_N_go x s) = digits (Z.of_N x) true s.
Proof.
  induction (N.lt_wf_0 x) as [x _ IH]. intros Hx s b.
  rewrite pretty_N_go_step by done.
  assert (x `mod` 10 < 10)%N as Hm by (by apply N.mod_lt).
  pose proof (pretty_N_char_digit _ Hm) as Hd.
  assert (Z.of_N x = 10 * Z.of_N (x `div` 10) + Z.of_N (x `mod` 10))%Z as Hx10.
  { rewrite (N.div_mod x 10) at 1 by done. lia. }
  destruct (decide (x `div` 10 = 0)%N) as [E|E].
  - rewrite E, pretty_N_go_0. cbn [digits].
    rewrite (digit_not_underscore _ _ Hd), Hd, Hx10, E. done.
  - rewrite IH; [|by apply N.div_lt | lia]. cbn [digits].
    rewrite (digit_not_underscore _ _ Hd), Hd, Hx10. done.
Qed.

Lemma all_chars_pretty_N_go (x : N) (s : string) :
  all_chars is_digit s = true -> all_chars is_digit (pretty_N_go x s) = true.
Proof.
  revert s. induction (N.lt_wf_0 x) as [x _ IH]. intros s Hs.
  destruct (decide (0 < x)%N) as [Hx|Hx].
  - rewrite pretty_N_go_step by done. apply IH; [by apply N.div_lt|].
    cbn [all_chars]. rewrite Hs, andb_true_r. unfold is_digit.
    by rewrite (pretty_N_char_digit (x `mod` 10)) by (by apply N.mod_lt).
  - assert (x = 0%N) as -> by lia. by rewrite pretty_N_go_0.
Qed.

Lemma pretty_N_go_cons (x : N) (s : string) :
  (0 < x)%N -> ∃ c r, pretty_N_go x s = String c r.
Proof.
  revert s. induction (N.lt_wf_0 x) as [x _ IH]. intros s Hx.
  rewrite pretty_N_go_step by done.
  destruct (decide (0 < x `div` 10)%N) as [Hd|Hd].
  - apply IH; [by apply N.div_lt | done].
  - assert (x `div` 10 = 0)%N as -> by (apply N.le_0_r, N.nlt_ge, Hd). rewrite pretty_N_go_0. eauto.
Qed.

(** A string of digits has nothing to strip. *)
Lemma lstrip_digits (s : string) : all_chars is_digit s = true -> lstrip s = s.
Proof.
  destruct s as [|c s]; [done|]. cbn [all_chars lstrip]. unfold is_digit.
  destruct (digit c) as [d|] eqn:E; [|done]. intros _.
  by rewrite (digit_not_space c d E).
Qed.

Lemma rstrip_digits (s : string) : all_chars is_digit s = true -> rstrip s = s.
Proof.
  induction s as [|c s IH]; [done|]. cbn [all_chars rstrip]. unfold is_digit at 1.
  destruct (digit c) as [d|] eqn:E; [|done]. simpl. intros Hs.
  rewrite (IH Hs). destruct s; [|done]. by rewrite (digit_not_space c d E).
Qed.

Lemma strip_digits (s : string) : all_chars is_digit s = true -> strip s = s.
Proof. intros Hs. unfold strip. by rewrite (lstrip_digits s Hs), rstrip_digits. Qed.

Lemma strip_minus_digits (s : string) :
  s ≠ EmptyString -> all_chars is_digit s = true ->
  strip (String "-" s) = String "-" s.
Proof.
  intros Hne Hs. unfold strip. change (lstrip (String "-" s)) with (String "-" s).
  cbn [rstrip]. rewrite (rstrip_digits s Hs). by destruct s.
Qed.

Lemma py_int_digits (s : string) :
  all_chars is_digit s = true -> py_int s = digits 0 false s.
Proof.
  intros Hs. unfold py_int. rewrite (strip_digits s Hs).
  destruct s as [|c s]; [done|]. cbn [all_chars] in Hs.
  apply andb_true_iff in Hs as [Hc _]. unfold is_digit in Hc.
  destruct c as [[] [] [] [] [] [] [] []]; try done.
Qed.

Lemma py_int_pretty_pos (p : positive) :
  all_chars is_digit (pretty (N.pos p)) = true
  ∧ pretty (N.pos p) ≠ EmptyString
  ∧ digits 0 false (pretty (N.pos p)) = Some (Z.pos p).
Proof.
  unfold pretty, pretty_N. rewrite decide_False by done. split; [|split].
  - by apply all_chars_pretty_N_go.
  - destruct (pretty_N_go_cons (N.pos p) "") as (c & r & ->); done.
  - rewrite digits_pretty_N_go by done. done.
Qed.

(** [int(str(z))] is [z]. *)
Lemma py_int_pretty (z : Z) : py_int (pretty z) = Some z.
Proof.
  destruct z as [|p|p]; [done|..]; destruct (py_int_pretty_pos p) as (Hd & Hne & Hv).
  - change (pretty (Z.pos p)) with (pretty (N.pos p)).
    by rewrite py_int_digits.
  - change (pretty (Z.neg p)) with (String "-" (pretty (N.pos p))).
    unfold py_int. rewrite strip_minus_digits by done. by rewrite Hv.
Qed.








End decimal_facts.


(** ** Reporter: a table without a number, and the names of the cities *)
Section empty_facts.
Import pd Reporter.

Lemma omap_nil_inv {A B} (f : A -> option B) (l : list A) :
  omap f l = [] -> ∀ a, a ∈ l -> f a = None.
Proof.
  induction l as [|b l IH]; [by intros _ a ?%elem_of_nil|].
  cbn [omap list_omap]. destruct (f b) eqn:E; [done|].
  intros Hl a [->|Ha]%elem_of_cons; auto.
Qed.

Lemma getcol_weather_cell (col : string) (r : mrow) :
  col ∈ weather_cols -> getcol col r = weather_cell col (wx r).
Proof.
  intros Hcol. unfold weather_cols in Hcol.
  repeat (apply elem_of_cons in Hcol as [->|Hcol]; [done|]).
  by apply elem_of_nil in Hcol.
Qed.

Lemma getcol_air_cell (col : string) (r : mrow) :
  col ∈ air_cols -> getcol col r = air_cell col (air r).
Proof.
  intros Hcol. unfold air_cols in Hcol.
  repeat (apply elem_of_cons in Hcol as [->|Hcol]; [done|]).
  by apply elem_of_nil in Hcol.
Qed.

Lemma numeric_cols_split (df : list mrow) (col : string) :
  col ∈ numeric_cols df <-> col ∈ weather_cols ∨ col ∈ air_cols.
Proof.
  assert (numeric_cols df
          = [ "temperature"; "humidity"; "wind_speed"; "aqi"; "pm2_5"; "pm10";
              "co"; "no"; "no2"; "o3"; "so2" ]%string) as -> by by vm_compute.
  unfold weather_cols, air_cols. rewrite <- elem_of_app. done.
Qed.

Lemma weather_cell_no_weather (col : string) :
  col ∈ weather_cols -> weather_cell col no_weather = NaN.
Proof.
  intros Hcol. unfold weather_cols in Hcol.
  repeat (apply elem_of_cons in Hcol as [->|Hcol]; [done|]).
  by apply elem_of_nil in Hcol.
Qed.

Lemma air_cell_no_air (col : string) :
  col ∈ air_cols -> air_cell col no_air = NaN.
Proof.
  intros Hcol. unfold air_cols in Hcol.
  repeat (apply elem_of_cons in Hcol as [->|Hcol]; [done|]).
  by apply elem_of_nil in Hcol.
Qed.

Lemma observations_nil (df : list mrow) (cid : Z) (col : string) :
  observations df cid col = []
  <-> ∀ r, r ∈ df -> city_id r = cid -> to_numeric (getcol col r) = None.
Proof.
  rewrite observations_omap. split.
  - intros E r Hr Hid. pose proof (omap_nil_inv _ _ E r Hr) as H.
    unfold reading in H. by rewrite decide_True in H.
  - intros H. apply omap_none. intros r Hr. unfold reading.
    case_decide; [|done]. by apply H.
Qed.

End empty_facts.

(** X18. [compute_stats] of the merged table raises [KeyError] exactly when
    neither series holds a number: no weather row has a numeric temperature,
    humidity or wind speed and no air row a numeric index or pollutant.  A
    run whose queries return such data ends on [KeyError] with nothing
    written and the connection open. *)
Theorem compute_stats_needs_a_number (df_w : list Reporter.wrow)
    (df_a : list Reporter.arow) :
  (Reporter.compute_stats (Reporter.merge_hourly df_w df_a) = Raise KeyError
   <-> (∀ w col, w ∈ df_w -> col ∈ weather_cols ->
          pd.to_numeric (weather_cell col (Reporter.w_vals w)) = None)
       ∧ (∀ a col, a ∈ df_a -> col ∈ air_cols ->
            pd.to_numeric (air_cell col (Reporter.a_vals a)) = None))
  ∧ (∀ (a : Reporter.args) (e : Reporter.env),
       Reporter.connect_db e = Ok tt ->
       Reporter.query_weather e (Reporter.days_back a)
         (Reporter.parse_cities (Reporter.cities a)) = Ok df_w ->
       Reporter.query_air e (Reporter.days_back a)
         (Reporter.parse_cities (Reporter.cities a)) = Ok df_a ->
       Reporter.compute_stats (Reporter.merge_hourly df_w df_a) = Raise KeyError ->
       Reporter.main a e Reporter.initial
       = (Raise KeyError,
          {| Reporter.connection := Reporter.Open; Reporter.outputs := [] |})).
Proof.
  split; cycle 1.
  { intros a e Hc Hw Ha Hs. unfold Reporter.main.
    unfold mbind at 1, Reporter.prog_bind at 1, Reporter.connect. rewrite Hc.
    unfold mbind at 1, Reporter.prog_bind at 1, Reporter.read_weather,
      Reporter.lift. rewrite Hw.
    unfold mbind at 1, Reporter.prog_bind at 1, Reporter.read_air,
      Reporter.lift. rewrite Ha.
    unfold mbind at 1, Reporter.prog_bind at 1. by rewrite Hs. }
  rewrite compute_stats_raises. split.
  - intros Hno. split.
    + intros w col Hw Hcol.
      destruct (pd_merge_outer_left w df_w df_a Hw) as [_ (j & Hj & Hk & Hv)].
      destruct (merge_hourly_intro j df_w df_a Hj) as (m & Hm & Hmk & Hwx & _).
      assert (col ∈ Reporter.numeric_cols (Reporter.merge_hourly df_w df_a))
        as Hc by (apply numeric_cols_split; by left).
      pose proof (proj1 (observations_nil _ _ _)
                    (Hno (Reporter.city_id m) col Hc) m Hm eq_refl) as H.
      rewrite (getcol_weather_cell col m Hcol) in H. congruence.
    + intros a col Ha Hcol.
      destruct (pd_merge_outer_right a df_w df_a Ha) as (j & Hj & Hk & Hv).
      destruct (merge_hourly_intro j df_w df_a Hj) as (m & Hm & Hmk & _ & Hair).
      assert (col ∈ Reporter.numeric_cols (Reporter.merge_hourly df_w df_a))
        as Hc by (apply numeric_cols_split; by right).
      pose proof (proj1 (observations_nil _ _ _)
                    (Hno (Reporter.city_id m) col Hc) m Hm eq_refl) as H.
      rewrite (getcol_air_cell col m Hcol) in H. congruence.
  - intros [Hw Ha] cid col Hc. apply observations_nil.
    intros m (j & Hj & Hk & Hwx & Hair & _)%merge_hourly_elem _.
    apply numeric_cols_split in Hc as [Hcol|Hcol].
    + rewrite (getcol_weather_cell col m Hcol), Hwx.
      apply pd_merge_outer_elem in Hj
        as [(w & Hin & _ & -> & _)|(a & _ & _ & _ & -> & _)].
      * by apply Hw.
      * by rewrite weather_cell_no_weather.
    + rewrite (getcol_air_cell col m Hcol), Hair.
      apply pd_merge_outer_elem in Hj
        as [(w & _ & _ & _ & [(a & Hin & _ & ->)|[_ ->]])
           |(a & Hin & _ & _ & _ & ->)].
      * by apply Ha.
      * by rewrite air_cell_no_air.
      * by apply Ha.
Qed.

Section label_facts.
Import pd Reporter.

Lemma city_label_cases (cid : Z) :
  city_label cid
  = if decide (cid = 1%Z) then "Hanoi"%string
    else if decide (cid = 2%Z) then "Danang"%string else pretty cid.
Proof.
  unfold city_label, CITY_MAP.
  destruct (decide (cid = 1%Z)) as [->|H1]; [done|].
  destruct (decide (cid = 2%Z)) as [->|H2]; [done|].
  rewrite lookup_insert_ne by done. by rewrite lookup_singleton_ne by done.
Qed.

Lemma pretty_not_name (z : Z) (s : string) : py_int s = None -> pretty z ≠ s.
Proof. intros Hs E. by rewrite <- E, py_int_pretty in Hs. Qed.

End label_facts.

(** X19. The name a city gets in the statistics table is "Hanoi" for 1,
    "Danang" for 2 and the decimal string of the id otherwise, and two
    different ids never get the same name. *)
Theorem city_label_tells_cities_apart :
  (∀ c1 c2, Reporter.city_label c1 = Reporter.city_label c2 -> c1 = c2)
  ∧ (∀ df r, r ∈ Reporter.emitted df ->
       Reporter.st_city_name r
       = if decide (Reporter.st_city_id r = 1%Z) then "Hanoi"%string
         else if decide (Reporter.st_city_id r = 2%Z) then "Danang"%string
              else pretty (Reporter.st_city_id r)).
Proof.
  split.
  - intros c1 c2. rewrite !city_label_cases.
    pose proof (pretty_not_name c1 "Hanoi" eq_refl).
    pose proof (pretty_not_name c1 "Danang" eq_refl).
    pose proof (pretty_not_name c2 "Hanoi" eq_refl).
    pose proof (pretty_not_name c2 "Danang" eq_refl).
    repeat case_decide; subst; try done; try congruence.
    apply pretty_Z_inj.
  - intros df r (cid & col & _ & _ & ->)%emitted_elem%stats_rows_elem.
    cbn [Reporter.stat_of Reporter.st_city_name Reporter.st_city_id].
    apply city_label_cases.
Qed.

(** ** Reporter: what a run writes *)
Section output_facts.
Import Reporter.

Lemma writes_ret : writes [] (mret tt).
Proof. intros s. exists []. by rewrite app_nil_r. Qed.

Lemma writes_conn_close : writes [] conn_close.
Proof. intros s. exists []. simpl. by rewrite app_nil_r. Qed.

Lemma writes_output e path : writes [path] (output e path).
Proof.
  intros s. unfold output. destruct (write_file e path) as [[]|x]; simpl.
  - by exists [path].
  - exists []. rewrite app_nil_r. split; [done|]. split; [apply prefix_nil | done].
Qed.

Lemma writes_bind (l1 l2 : list string) (p q : prog unit) :
  writes l1 p -> writes l2 q -> writes (l1 ++ l2) (p;; q).
Proof.
  intros Hp Hq s. unfold mbind, prog_bind.
  destruct (Hp s) as (k1 & Ho & Hpre & Hok).
  destruct (p s) as [[[]|x] s']; simpl in *.
  - rewrite (Hok eq_refl) in Ho. destruct (Hq s') as (k2 & Ho2 & Hpre2 & Hok2).
    exists (l1 ++ k2). rewrite Ho2, Ho, app_assoc. split; [done|].
    split; [by apply prefix_app|]. intros E. by rewrite (Hok2 E).
  - exists k1. split; [done|]. split; [by apply prefix_app_r | done].
Qed.

Lemma writes_when (b : bool) (l : list string) (p : prog unit) :
  writes l p -> writes (if b then l else []) (when b p).
Proof. destruct b; [done | intros _; apply writes_ret]. Qed.

Lemma writes_plot_line e df col dir :
  col ∈ columns df ->
  writes [figure dir ("line_" +:+ col)] (plot_line e df col dir).
Proof.
  intros Hcol. unfold plot_line. rewrite bool_decide_eq_true_2 by done.
  apply writes_output.
Qed.

Lemma writes_plot_box_by_city e df col dir :
  col ∈ columns df ->
  writes [figure dir ("box_" +:+ col +:+ "_by_city")]
    (plot_box_by_city e df col dir).
Proof.
  intros Hcol. unfold plot_box_by_city. rewrite bool_decide_eq_true_2 by done.
  apply writes_output.
Qed.

Lemma writes_plot_hist_with_stats e df col dir :
  col ∈ columns df ->
  writes [figure dir ("hist_" +:+ col +:+ "_with_stats")]
    (plot_hist_with_stats e df col dir).
Proof.
  intros Hcol. unfold plot_hist_with_stats.
  rewrite bool_decide_eq_true_2 by done. apply writes_output.
Qed.

(** What [main] does once the statistics are there. *)
Lemma writes_after_stats a e df :
  writes (tables a ++ figures a)
    (ensure_outdir e (outdir a);;
     when (save_csv a)
       (output e "descriptive_stats.csv";; output e "merged_data_preview.csv");;
     when (save_excel a) (output e "descriptive_stats.xlsx");;
     for_each ["temperature"; "aqi"]%string
       (λ col, plot_line e df col (outdir a));;
     for_each ["aqi"; "temperature"; "humidity"]%string
       (λ col, plot_box_by_city e df col (outdir a));;
     for_each ["aqi"; "temperature"]%string
       (λ col, plot_hist_with_stats e df col (outdir a));;
     plot_corr_heatmap e df (outdir a);;
     conn_close).
Proof.
  assert (∀ col, col ∈ ["temperature"; "aqi"; "humidity"]%string ->
                 col ∈ columns df) as Hcols.
  { intros col Hcol. unfold columns.
    repeat (apply elem_of_cons in Hcol as [->|Hcol];
            [apply (bool_decide_unpack _); by vm_compute|]).
    by apply elem_of_nil in Hcol. }
  assert (∃ l, l = tables a ++ figures a
               ∧ writes l
                   (ensure_outdir e (outdir a);;
                    when (save_csv a)
                      (output e "descriptive_stats.csv";;
                       output e "merged_data_preview.csv");;
                    when (save_excel a) (output e "descriptive_stats.xlsx");;
                    for_each ["temperature"; "aqi"]%string
                      (λ col, plot_line e df col (outdir a));;
                    for_each ["aqi"; "temperature"; "humidity"]%string
                      (λ col, plot_box_by_city e df col (outdir a));;
                    for_each ["aqi"; "temperature"]%string
                      (λ col, plot_hist_with_stats e df col (outdir a));;
                    plot_corr_heatmap e df (outdir a);;
                    conn_close)) as (l & -> & H); [|exact H].
  eexists. split; cycle 1.
  - cbn [for_each].
    repeat first
      [ apply writes_conn_close
      | apply writes_ret
      | apply writes_bind
      | apply writes_when
      | apply writes_output
      | apply writes_plot_line; apply Hcols; set_solver
      | apply writes_plot_box_by_city; apply Hcols; set_solver
      | apply writes_plot_hist_with_stats; apply Hcols; set_solver ].
  - unfold tables, figures. destruct (save_csv a), (save_excel a); reflexivity.
Qed.

End output_facts.

(** X14. What a run asks the file system for is, in this order: the output
    directory, the tables the flags select (the two CSV files, then the
    workbook), and then figures under the output directory, in the order of
    the plot calls.  No figure comes before the last table, a run that
    returns has made the directory and every selected table, and anything
    is made only after the connection, both queries and the statistics
    succeeded: a run on data without a number creates nothing, not even the
    directory. *)
Theorem main_output_order (a : Reporter.args) (e : Reporter.env) :
  ∃ tabs figs,
    Reporter.outputs (Reporter.main a e Reporter.initial).2 = tabs ++ figs
    ∧ tabs `prefix_of` tables a
    ∧ figs `sublist_of` figures a
    ∧ (figs ≠ [] ∨ (Reporter.main a e Reporter.initial).1 = Ok tt ->
       tabs = tables a)
    ∧ (tabs ≠ [] ->
       ∃ df_w df_a stats,
         Reporter.connect_db e = Ok tt
         ∧ Reporter.query_weather e (Reporter.days_back a)
             (Reporter.parse_cities (Reporter.cities a)) = Ok df_w
         ∧ Reporter.query_air e (Reporter.days_back a)
             (Reporter.parse_cities (Reporter.cities a)) = Ok df_a
         ∧ Reporter.compute_stats (Reporter.merge_hourly df_w df_a) = Ok stats).
Proof.
  assert (∀ (P : Prop) r s, Reporter.outputs s = [] -> r ≠ Ok tt ->
            ∃ tabs figs,
              Reporter.outputs s = tabs ++ figs
              ∧ tabs `prefix_of` tables a
              ∧ figs `sublist_of` figures a
              ∧ (figs ≠ [] ∨ r = Ok tt -> tabs = tables a)
              ∧ (tabs ≠ [] -> P)) as Hnone.
  { intros P r s Hs Hr. exists [], []. split; [done|].
    split; [apply prefix_nil|]. split; [apply sublist_nil_l|].
    split; [intros [|]; done | done]. }
  destruct (Reporter.main a e Reporter.initial) as [r s] eqn:Erun.
  cbn [fst snd]. unfold Reporter.main in Erun.
  unfold mbind at 1, Reporter.prog_bind at 1, Reporter.connect in Erun.
  destruct (Reporter.connect_db e) as [[]|x] eqn:Ec;
    [|injection Erun as <- <-; by apply Hnone].
  unfold mbind at 1, Reporter.prog_bind at 1, Reporter.read_weather,
    Reporter.lift in Erun.
  destruct (Reporter.query_weather e _ _) as [df_w|x] eqn:Ew;
    [|injection Erun as <- <-; by apply Hnone].
  unfold mbind at 1, Reporter.prog_bind at 1, Reporter.read_air,
    Reporter.lift in Erun.
  destruct (Reporter.query_air e _ _) as [df_a|x] eqn:Ea;
    [|injection Erun as <- <-; by apply Hnone].
  unfold mbind at 1, Reporter.prog_bind at 1 in Erun.
  destruct (Reporter.compute_stats _) as [stats|x] eqn:Es;
    [|injection Erun as <- <-; by apply Hnone].
  clear Hnone.
  destruct (writes_after_stats a e (Reporter.merge_hourly df_w df_a)
              {| Reporter.connection := Reporter.Open;
                 Reporter.outputs := Reporter.outputs Reporter.initial |})
    as (l1 & Ho & [k Hpre] & Hok).
  rewrite Erun in Ho, Hok.
  cbn [fst snd Reporter.outputs Reporter.initial app] in Ho, Hok.
  rewrite Ho.
  apply app_eq_inv in Hpre as [(m & Ht & ->)|(m & -> & Hf)].
  - exists l1, []. rewrite app_nil_r. split; [done|].
    split; [by exists m|]. split; [apply sublist_nil_l|].
    split; [|by eauto 10]. intros [|E]; [done|].
    apply Hok in E. rewrite E in Ht.
    rewrite <- (app_nil_r (tables a)) in Ht at 1.
    rewrite <- app_assoc in Ht. apply app_inv_head in Ht.
    symmetry in Ht. by apply app_eq_nil in Ht as [Hf _].
  - exists (tables a), m. split; [done|]. split; [done|].
    split; [rewrite Hf; by apply sublist_inserts_r|]. split; [done|]. by eauto 10.
Qed.
